(** * scripts/export_cert.py: a shallow embedding and its verified properties

    The script exports the code-signing identities of the macOS login
    keychain into a PKCS#12 bundle with the [security] utility, re-imports
    the bundle into a disposable keychain to check it, and writes the
    base64 text of the bundle next to it.

    The embedding follows the script top to bottom: the [.env] loader, the
    configuration check, the command runner [run] and [main].  The
    operating system is explicit state: a file system (a finite map from
    paths to bytes) and whatever else the [security] utility keeps, behind
    an arbitrary transition function.  Starting the utility can fail, and
    so can reading the configuration as text: [subprocess.run] and the
    text reader raise then, and nothing in the script catches it. *)

From Stdlib Require Import ZArith Ascii String List Lia Bool.
From Stdlib.Strings Require Import Byte.
From stdpp Require Import base option gmap strings list pretty.

Local Open Scope Z_scope.

(** ** Text helpers: the fragment of Python's [str] the loader uses *)

Module Py.

(** Characters [str.strip()] removes.  Configuration text is taken to be
    ASCII, one character per byte; on it [str.isspace] holds of exactly
    TAB, LF, VT, FF, CR, the separators FS, GS, RS, US and SPACE. *)
Definition isspace (c : ascii) : bool :=
  let n := N_of_ascii c in
  ((9 <=? n) && (n <=? 13) || (28 <=? n) && (n <=? 32))%N.

Fixpoint lstrip (p : ascii -> bool) (s : string) : string :=
  match s with
  | EmptyString => EmptyString
  | String c s' => if p c then lstrip p s' else s
  end.

Fixpoint rstrip (p : ascii -> bool) (s : string) : string :=
  match s with
  | EmptyString => EmptyString
  | String c s' =>
      match rstrip p s' with
      | EmptyString => if p c then EmptyString else String c EmptyString
      | r => String c r
      end
  end.

(** [s.strip()] and [s.strip(chars)]: both ends, every character of the
    class, as many as there are. *)
Definition strip_with (p : ascii -> bool) (s : string) : string :=
  rstrip p (lstrip p s).

Definition strip (s : string) : string := strip_with isspace s.

Definition in_chars (chars : string) (c : ascii) : bool :=
  bool_decide (c ∈ list_ascii_of_string chars).

Definition strip_chars (chars s : string) : string :=
  strip_with (in_chars chars) s.

Definition startswith (pre s : string) : bool := String.prefix pre s.

(** [sep.join(items)] *)
Fixpoint join (sep : string) (items : list string) : string :=
  match items with
  | [] => ""
  | [x] => x
  | x :: rest => x +:+ sep +:+ join sep rest
  end.

(** [c * n] for a one-character string. *)
Fixpoint repeat_char (c : ascii) (n : nat) : string :=
  match n with
  | O => EmptyString
  | S n' => String c (repeat_char c n')
  end.

(** Iterating over a file opened in text mode: lines end at LF, CR or
    CRLF (universal newlines), and each line that had a terminator
    carries a single LF.  [cur] is the line being read, reversed;
    [after_cr] remembers a CR so that the LF of a CRLF is not counted
    twice. *)
Fixpoint lines_from (after_cr : bool) (cur : list ascii) (s : string)
  : list string :=
  match s with
  | EmptyString =>
      match cur with
      | [] => []
      | _ => [string_of_list_ascii (rev cur)]
      end
  | String c s' =>
      if Ascii.eqb c "010" then
        if after_cr then lines_from false cur s'
        else string_of_list_ascii (rev ("010"%char :: cur))
               :: lines_from false [] s'
      else if Ascii.eqb c "013" then
        string_of_list_ascii (rev ("010"%char :: cur))
          :: lines_from true [] s'
      else lines_from false (c :: cur) s'
  end.

Definition lines (s : string) : list string := lines_from false [] s.

(** [str(x)] of a value that is a string or [None], as an f-string or
    [print] renders it. *)
Definition str (o : option string) : string :=
  match o with
  | Some s => s
  | None => "None"
  end.

(** Truthiness of a value that is a string or [None]. *)
Definition truthy (o : option string) : bool :=
  match o with
  | Some EmptyString => false
  | Some _ => true
  | None => false
  end.

Fixpoint all_chars (p : ascii -> bool) (s : string) : bool :=
  match s with
  | EmptyString => true
  | String c s' => p c && all_chars p s'
  end.

Definition first_char (s : string) : option ascii :=
  match s with
  | EmptyString => None
  | String c _ => Some c
  end.

Fixpoint last_char (s : string) : option ascii :=
  match s with
  | EmptyString => None
  | String c EmptyString => Some c
  | String _ s' => last_char s'
  end.

End Py.

(** ** The [.env] loader (lines 9-24 of the script) *)

(** The [re.match] of line 17: group 1 is a non-empty run of characters
    other than the equals sign, then one equals sign, then group 2, any
    run of characters other than LF, up to the end of the text or to a
    final LF.  Group 1 cannot contain an equals sign, so it ends at the
    first one. *)
Fixpoint split_first_eq (s : string) : option (string * string) :=
  match s with
  | EmptyString => None
  | String c s' =>
      if Ascii.eqb c "=" then Some (EmptyString, s')
      else match split_first_eq s' with
           | Some (k, rest) => Some (String c k, rest)
           | None => None
           end
  end.

Fixpoint dot_star (s : string) : string * string :=
  match s with
  | EmptyString => (EmptyString, EmptyString)
  | String c s' =>
      if Ascii.eqb c "010" then (EmptyString, s)
      else let '(v, tail) := dot_star s' in (String c v, tail)
  end.

Definition re_match_kv (line : string) : option (string * string) :=
  match split_first_eq line with
  | Some (EmptyString, _) => None
  | Some (key, rest) =>
      let '(val, tail) := dot_star rest in
      match tail with
      | EmptyString => Some (key, val)
      | String _ EmptyString => Some (key, val)
      | _ => None
      end
  | None => None
  end.

(** The argument of [val.strip(...)]: the two characters double quote
    (code 34) and single quote (code 39). *)
Definition quote_chars : string :=
  String "034"%char (String "039"%char EmptyString).

Definition is_quote (c : ascii) : bool := Py.in_chars quote_chars c.

(** The body of the [for line in f] loop. *)
Definition load_line (env_vars : gmap string string) (line : string)
  : gmap string string :=
  let line := Py.strip line in
  if bool_decide (line = "") || Py.startswith "#" line then env_vars
  else match re_match_kv line with
       | Some (key, val) =>
           let val := Py.strip_chars quote_chars val in
           <[key := val]> env_vars
       | None => env_vars
       end.

Definition parse_env (text : string) : gmap string string :=
  fold_left load_line (Py.lines text) ∅.


(** ** [base64.b64encode] and its inverse

    The standard alphabet of RFC 4648 with [=] padding and no line
    breaks, as the library's encoder produces it: three bytes are packed
    into 24 bits and cut into four groups of six. *)

Module Base64.

Definition alphabet : list byte :=
  list_byte_of_string
    "ABCDEFGHIJKLMNOPQRSTUVWXYZabcdefghijklmnopqrstuvwxyz0123456789+/".

Definition pad : byte := "="%byte.

Definition z_of (b : byte) : Z := Z.of_N (Byte.to_N b).

Definition byte_of (n : Z) : byte :=
  match Byte.of_N (Z.to_N (Z.land n 255)) with
  | Some b => b
  | None => "000"%byte
  end.

Definition char_of (n : Z) : byte := nth (Z.to_nat n) alphabet pad.

Definition value_of (c : byte) : option Z :=
  let n := z_of c in
  if (65 <=? n) && (n <=? 90) then Some (n - 65)
  else if (97 <=? n) && (n <=? 122) then Some (n - 71)
  else if (48 <=? n) && (n <=? 57) then Some (n + 4)
  else if n =? 43 then Some 62
  else if n =? 47 then Some 63
  else None.

Definition sextet (n k : Z) : Z := Z.land (Z.shiftr n k) 63.

Definition pack3 (a b c : byte) : Z :=
  Z.lor (Z.lor (Z.shiftl (z_of a) 16) (Z.shiftl (z_of b) 8)) (z_of c).

Definition pack4 (v0 v1 v2 v3 : Z) : Z :=
  Z.lor (Z.lor (Z.lor (Z.shiftl v0 18) (Z.shiftl v1 12)) (Z.shiftl v2 6)) v3.

Fixpoint b64encode (data : list byte) : list byte :=
  match data with
  | [] => []
  | [a] =>
      let n := Z.shiftl (z_of a) 16 in
      [char_of (sextet n 18); char_of (sextet n 12); pad; pad]
  | [a; b] =>
      let n := Z.lor (Z.shiftl (z_of a) 16) (Z.shiftl (z_of b) 8) in
      [char_of (sextet n 18); char_of (sextet n 12);
       char_of (sextet n 6); pad]
  | a :: b :: c :: rest =>
      let n := pack3 a b c in
      char_of (sextet n 18) :: char_of (sextet n 12)
        :: char_of (sextet n 6) :: char_of (sextet n 0)
        :: b64encode rest
  end.

(** [base64.b64decode] in its validating form: groups of four
    characters, padding only in the last group, nothing outside the
    alphabet. *)
Fixpoint b64decode (text : list byte) : option (list byte) :=
  match text with
  | [] => Some []
  | c0 :: c1 :: c2 :: c3 :: rest =>
      v0 ← value_of c0;
      v1 ← value_of c1;
      if Byte.eqb c2 pad then
        match rest with
        | [] =>
            if Byte.eqb c3 pad
            then Some [byte_of (Z.shiftr (pack4 v0 v1 0 0) 16)]
            else None
        | _ => None
        end
      else
        v2 ← value_of c2;
        if Byte.eqb c3 pad then
          match rest with
          | [] =>
              let n := pack4 v0 v1 v2 0 in
              Some [byte_of (Z.shiftr n 16); byte_of (Z.shiftr n 8)]
          | _ => None
          end
        else
          v3 ← value_of c3;
          tail ← b64decode rest;
          let n := pack4 v0 v1 v2 v3 in
          Some (byte_of (Z.shiftr n 16) :: byte_of (Z.shiftr n 8)
                  :: byte_of n :: tail)
  | _ => None
  end.

End Base64.

(** ** The operating system as the script sees it *)

(** What a finished child process leaves behind. *)
Record ProcessExit := {
  exit_status : Z;
  out_text : string;
  err_text : string }.

(** The exceptions a run can meet. *)
Inductive exn :=
  | TypeError
  | ValueError
  | IndexError
  | UnicodeDecodeError
  | FileNotFoundError
  | PermissionError
  | CalledProcessError.

(** What starting a program and collecting its output comes to.  The
    child ran to its end and what it wrote was decoded; or
    [subprocess.run] raised: the program could not be started
    ([FileNotFoundError], [PermissionError]), or it ran and what it
    wrote could not be decoded ([UnicodeDecodeError]). *)
Inductive Launch :=
  | Finished (e : ProcessExit)
  | Failed (err : exn).

(** [subprocess.CompletedProcess] *)
Record CompletedProcess := {
  args : list string;
  returncode : Z;
  stdout : string;
  stderr : string }.

(** The file system the script looks at, and the rest of the machine
    ([ext]: the keychains, the search list), which only the [security]
    utility reads and writes. *)
Record OS (X : Type) := {
  files : gmap string (list byte);
  ext : X }.
Arguments files {X} _.
Arguments ext {X} _.

(** Everything the process does that can be seen from outside, in order.
    [ERun] is a call of [subprocess.run] that returned, [EFail] one that
    raised after the program was handed to the operating system. *)
Inductive event :=
  | EPrint (line : string)
  | ERun (shell : bool) (argv : list string) (result : CompletedProcess)
  | EFail (shell : bool) (argv : list string) (err : exn)
  | ERemove (path : string)
  | ERead (path : string) (data : list byte)
  | EWrite (path : string) (data : list byte).

(** How a piece of the script ends: it falls through with a value, it
    calls [sys.exit], or an exception nobody catches escapes. *)
Inductive outcome (A : Type) :=
  | Ret (a : A)
  | Exit (status : Z)
  | Raise (e : exn).
Arguments Ret {A} a.
Arguments Exit {A} status.
Arguments Raise {A} e.

Record Result (X A : Type) := {
  sys : OS X;
  log : list event;
  out : outcome A }.
Arguments sys {X A} _.
Arguments log {X A} _.
Arguments out {X A} _.

Definition M (X A : Type) : Type := OS X -> Result X A.

Definition ret {X A} (a : A) : M X A :=
  fun s => {| sys := s; log := []; out := Ret a |}.

Definition bind {X A B} (m : M X A) (k : A -> M X B) : M X B :=
  fun s =>
    let r := m s in
    match out r with
    | Ret a =>
        let r' := k a (sys r) in
        {| sys := sys r'; log := log r ++ log r'; out := out r' |}
    | Exit c => {| sys := sys r; log := log r; out := Exit c |}
    | Raise e => {| sys := sys r; log := log r; out := Raise e |}
    end.

Declare Scope prog_scope.
Delimit Scope prog_scope with prog.
Notation "x ← y ; z" := (bind y (fun x => z))
  (at level 20, y at level 100, z at level 200, only parsing) : prog_scope.
Notation "x ;; z" := (bind x (fun _ => z))
  (at level 100, z at level 200, only parsing, right associativity)
  : prog_scope.
Local Open Scope prog_scope.

Definition raise {X A} (e : exn) : M X A :=
  fun s => {| sys := s; log := []; out := Raise e |}.

Definition sys_exit {X A} (status : Z) : M X A :=
  fun s => {| sys := s; log := []; out := Exit status |}.

Definition print {X} (line : string) : M X unit :=
  fun s => {| sys := s; log := [EPrint line]; out := Ret tt |}.

Definition os_path_exists {X} (path : string) : M X bool :=
  fun s => {| sys := s; log := [];
              out := Ret (bool_decide (is_Some (files s !! path))) |}.

Definition os_path_getsize {X} (path : string) : M X Z :=
  fun s =>
    match files s !! path with
    | Some data => {| sys := s; log := []; out := Ret (Z.of_nat (length data)) |}
    | None => {| sys := s; log := []; out := Raise FileNotFoundError |}
    end.

Definition os_remove {X} (path : string) : M X unit :=
  fun s =>
    match files s !! path with
    | Some _ =>
        {| sys := {| files := delete path (files s); ext := ext s |};
           log := [ERemove path]; out := Ret tt |}
    | None => {| sys := s; log := []; out := Raise FileNotFoundError |}
    end.

(** [open(path, "rb")] and [f.read()] *)
Definition read_bytes {X} (path : string) : M X (list byte) :=
  fun s =>
    match files s !! path with
    | Some data => {| sys := s; log := [ERead path data]; out := Ret data |}
    | None => {| sys := s; log := []; out := Raise FileNotFoundError |}
    end.

(** [open(path, "r")] and reading it: the bytes are decoded with the
    codec of the locale, [decode], which gives [None] for bytes that are
    not valid in it; the reader raises [UnicodeDecodeError] then. *)
Definition read_text {X} (decode : list byte -> option string)
    (path : string) : M X string :=
  data ← read_bytes path;
  match decode data with
  | Some text => ret text
  | None => raise UnicodeDecodeError
  end.

(** [open(path, "w")] and [f.write(text)]: the file is created or
    truncated, then holds the text. *)
Definition write_text {X} (path : string) (text : string) : M X unit :=
  fun s =>
    let data := list_byte_of_string text in
    {| sys := {| files := <[path := data]> (files s); ext := ext s |};
       log := [EWrite path data]; out := Ret tt |}.

(** ** The script *)

(** The module-level names that [main] reads.  [env_vars.get] gives
    [None] for a key that is not there. *)
Record Globals := {
  TARGET_HASH : option string;
  EXPORT_PASS : option string;
  TEMP_PASS : option string }.

Definition TEMP_KEYCHAIN : string := "temp_export.keychain".
Definition VERIFY_KEYCHAIN : string := "verify.keychain".

(** An argument vector is usable when every item is a string: [None]
    among the items makes both [str.join] and [subprocess.run] raise
    [TypeError]. *)
Fixpoint all_str (cmd : list (option string)) : option (list string) :=
  match cmd with
  | [] => Some []
  | Some a :: rest =>
      match all_str rest with
      | Some items => Some (a :: items)
      | None => None
      end
  | None :: _ => None
  end.

(** The NUL character, which no argument of a program can hold. *)
Fixpoint has_nul (s : string) : bool :=
  match s with
  | EmptyString => false
  | String c s' => Ascii.eqb c "000" || has_nul s'
  end.

(** The [CompletedProcess] that [subprocess.run] builds from the argument
    vector and what the child left. *)
Definition completed (argv : list string) (e : ProcessExit)
  : CompletedProcess :=
  {| args := argv; returncode := exit_status e;
     stdout := out_text e; stderr := err_text e |}.

Section Script.

(** The hidden state of the machine and the [security] utility (any
    child process, in fact): given the [shell] flag and the argument
    vector, starting it changes the machine and ends in a [Launch].
    The child is taken to terminate. *)
Context {X : Type}.
Variable spawn : bool -> list string -> OS X -> OS X * Launch.

(** Python's rendering of a list ([str(cmd)]), which [run] prints for
    [shell=True]; the script never asks for it. *)
Variable str_of_list : list (option string) -> string.

(** The codec of the locale, with which a file opened in text mode is
    read. *)
Variable decode : list byte -> option string.

(** The three absolute paths [os.path.abspath] computes from the
    location of the script and the working directory. *)
Variables ENV_PATH OUTPUT_P12 OUTPUT_B64 : string.

(** [sep.join(cmd)]: every item must be a string. *)
Definition str_join (sep : string) (cmd : list (option string))
  : M X string :=
  match all_str cmd with
  | Some items => ret (Py.join sep items)
  | None => raise TypeError
  end.

(** [subprocess.run(cmd, shell=shell, capture_output=True, text=True)],
    with its [check] parameter, which [run] leaves at its default.
    Before anything is started the library takes the program from the
    head of the vector ([IndexError] when there is none and no shell
    goes in front) and turns the items into C strings ([TypeError] for
    an item that is no string, [ValueError] for one that holds a NUL).
    Then the program is started and its output collected, which raises
    when the [Launch] failed. *)
Definition subprocess_run (cmd : list (option string)) (shell check : bool)
  : M X CompletedProcess :=
  match all_str cmd with
  | None => raise TypeError
  | Some argv =>
      if negb shell && bool_decide (argv = []) then raise IndexError
      else if existsb has_nul argv then raise ValueError
      else
        fun s =>
          let '(s', launched) := spawn shell argv s in
          match launched with
          | Failed err =>
              {| sys := s'; log := [EFail shell argv err]; out := Raise err |}
          | Finished e =>
              let result := completed argv e in
              {| sys := s'; log := [ERun shell argv result];
                 out := if check && negb (exit_status e =? 0)
                        then Raise CalledProcessError
                        else Ret result |}
          end
  end.

Definition run (cmd : list (option string)) (shell : bool)
  : M X CompletedProcess :=
  shown ← (if negb shell then str_join " " cmd
           else ret (str_of_list cmd));
  print ("Running: " +:+ shown);;
  result ← subprocess_run cmd shell false;
  (if negb (returncode result =? 0)
   then print ("Error: " +:+ stderr result)
   else ret tt);;
  ret result.

(** Lines 9-24. *)
Definition load_env : M X (gmap string string) :=
  found ← os_path_exists ENV_PATH;
  if found then
    print ("📄 Loading config from " +:+ ENV_PATH +:+ "...");;
    text ← read_text decode ENV_PATH;
    ret (parse_env text)
  else
    print "⚠️  .env file not found!";;
    ret ∅.

Section Main.

Variable g : Globals.

(** Lines 49-53. *)
Definition cleanup_old_files : M X unit :=
  print "🧹 Cleaning up old files...";;
  found ← os_path_exists TEMP_KEYCHAIN;
  (if found
   then run [Some "security"; Some "delete-keychain"; Some TEMP_KEYCHAIN]
            false;; ret tt
   else ret tt);;
  found ← os_path_exists OUTPUT_P12;
  (if found then os_remove OUTPUT_P12 else ret tt).

(** Lines 55-63. *)
Definition create_temp_keychain : M X unit :=
  print ("🔐 Creating temporary keychain: " +:+ TEMP_KEYCHAIN);;
  run [Some "security"; Some "create-keychain"; Some "-p";
       TEMP_PASS g; Some TEMP_KEYCHAIN] false;;
  run [Some "security"; Some "set-keychain-settings";
       Some TEMP_KEYCHAIN] false;;
  run [Some "security"; Some "unlock-keychain"; Some "-p";
       TEMP_PASS g; Some TEMP_KEYCHAIN] false;;
  print "🔍 Configuring search list...";;
  run [Some "security"; Some "list-keychains"; Some "-d"; Some "user";
       Some "-s"; Some TEMP_KEYCHAIN; Some "login.keychain"] false;;
  ret tt.

Definition CMD : list (option string) :=
  [Some "security"; Some "export";
   Some "-k"; Some "login.keychain";
   Some "-t"; Some "identities";
   Some "-f"; Some "pkcs12";
   Some "-P"; EXPORT_PASS g;
   Some "-o"; Some OUTPUT_P12].

(** Lines 75-101. *)
Definition export_p12 : M X CompletedProcess :=
  print ("📋 Copying identity " +:+ Py.str (TARGET_HASH g)
           +:+ " to temp keychain...");;
  print "⚠️  Exporting P12 (You may be prompted for password)...";;
  result ← run CMD false;
  result ← run CMD false;
  ret result.

(** Lines 103-109. *)
Definition check_p12 (result : CompletedProcess) : M X unit :=
  found ← os_path_exists OUTPUT_P12;
  nonempty ← (if found
              then size ← os_path_getsize OUTPUT_P12; ret (0 <? size)
              else ret false);
  if nonempty then print "✅ P12 file created."
  else
    print "❌ Export failed: Output file is empty or missing.";;
    print ("   Stdout: " +:+ stdout result);;
    print ("   Stderr: " +:+ stderr result);;
    sys_exit 1.

Definition verify_cmd : list (option string) :=
  [Some "security"; Some "import"; Some OUTPUT_P12;
   Some "-k"; Some VERIFY_KEYCHAIN;
   Some "-P"; EXPORT_PASS g;
   Some "-T"; Some "/usr/bin/codesign"].

(** Lines 111-137. *)
Definition verify_p12 : M X unit :=
  print "🕵️  Verifying P12 integrity...";;
  found ← os_path_exists VERIFY_KEYCHAIN;
  (if found
   then run [Some "security"; Some "delete-keychain";
             Some VERIFY_KEYCHAIN] false;; ret tt
   else ret tt);;
  run [Some "security"; Some "create-keychain"; Some "-p";
       Some "verify"; Some VERIFY_KEYCHAIN] false;;
  run [Some "security"; Some "set-keychain-settings";
       Some VERIFY_KEYCHAIN] false;;
  verify_result ← run verify_cmd false;
  run [Some "security"; Some "delete-keychain"; Some VERIFY_KEYCHAIN]
      false;;
  (if negb (returncode verify_result =? 0) then
     print "❌ CRITICAL: The exported P12 file is corrupt or invalid!";;
     print ("   Error: " +:+ stderr verify_result);;
     sys_exit 1
   else ret tt);;
  print "✅ P12 file verified successfully (it works!).".

(** Lines 139-155. *)
Definition read_and_encode : M X unit :=
  content ← read_bytes OUTPUT_P12;
  print ("   Size: " +:+ pretty (length content) +:+ " bytes");;
  let b64_str := string_of_list_byte (Base64.b64encode content) in
  write_text OUTPUT_B64 b64_str;;
  print (String "010" (Py.repeat_char "=" 60));;
  print "🎉 EXPORT & VERIFICATION SUCCESSFUL";;
  print (Py.repeat_char "=" 60);;
  print "ACTION REQUIRED: Update your GitHub Secret 'APPLE_CERTIFICATE' now.";;
  print "Copy the content of: scripts/certificate_base64.txt";;
  print (Py.repeat_char "=" 60).

Definition main : M X unit :=
  cleanup_old_files;;
  create_temp_keychain;;
  result ← export_p12;
  check_p12 result;;
  verify_p12;;
  read_and_encode.

End Main.

(** The whole module, run as a program: lines 7-39 and the call of
    [main] at the bottom. *)
Definition script : M X unit :=
  env_vars ← load_env;
  let g := {| TARGET_HASH := env_vars !! "APPLE_CERT_HASH";
              EXPORT_PASS := env_vars !! "APPLE_CERT_EXPORT_PASS";
              TEMP_PASS := env_vars !! "APPLE_TEMP_KEYCHAIN_PASS" |} in
  if negb (Py.truthy (TARGET_HASH g)) || negb (Py.truthy (EXPORT_PASS g))
  then
    print "❌ Error: Missing configuration. Please set APPLE_CERT_HASH and APPLE_CERT_EXPORT_PASS in your .env file.";;
    sys_exit 1
  else
    print ("ℹ️  Using Certificate Hash: " +:+ Py.str (TARGET_HASH g));;
    main g.

End Script.

(** ** Vocabulary for the statements *)

(** Character classes for the shape of a configuration line. *)
Definition not_eq_sign (c : ascii) : bool := negb (Ascii.eqb c "=").
Definition not_lf (c : ascii) : bool := negb (Ascii.eqb c "010").

(** A line [key=QinnerQ], where [Q] is one quote character. *)
Definition quoted_line (key : string) (q : ascii) (inner : string) : string :=
  key +:+ String "=" (String q (inner +:+ String q EmptyString)).

(** The calls of [subprocess.run] in a log that returned, in order, each
    with its argument vector and what it returned; those that raised,
    with the exception; and the argument vectors of both, in order: the
    commands that were handed to the operating system. *)
Fixpoint runs (l : list event) : list (list string * CompletedProcess) :=
  match l with
  | [] => []
  | ERun _ argv result :: l' => (argv, result) :: runs l'
  | _ :: l' => runs l'
  end.

Fixpoint failures (l : list event) : list (list string * exn) :=
  match l with
  | [] => []
  | EFail _ argv err :: l' => (argv, err) :: failures l'
  | _ :: l' => failures l'
  end.

Fixpoint commands (l : list event) : list (list string) :=
  match l with
  | [] => []
  | ERun _ argv _ :: l' => argv :: commands l'
  | EFail _ argv _ :: l' => argv :: commands l'
  | _ :: l' => commands l'
  end.

(** Files the process itself wrote or removed. *)
Fixpoint writes (l : list event) : list (string * list byte) :=
  match l with
  | [] => []
  | EWrite path data :: l' => (path, data) :: writes l'
  | _ :: l' => writes l'
  end.

Fixpoint reads (l : list event) : list (string * list byte) :=
  match l with
  | [] => []
  | ERead path data :: l' => (path, data) :: reads l'
  | _ :: l' => reads l'
  end.

Fixpoint removals (l : list event) : list string :=
  match l with
  | [] => []
  | ERemove path :: l' => path :: removals l'
  | _ :: l' => removals l'
  end.

(** The subcommand of a [security] invocation: its second word. *)
Definition subcommand (argv : list string) : option string :=
  argv !! 1%nat.

(** The command lines of the script. *)
Definition delete_keychain (name : string) : list string :=
  ["security"; "delete-keychain"; name].
Definition create_keychain (password name : string) : list string :=
  ["security"; "create-keychain"; "-p"; password; name].
Definition set_keychain_settings (name : string) : list string :=
  ["security"; "set-keychain-settings"; name].
Definition unlock_keychain (password name : string) : list string :=
  ["security"; "unlock-keychain"; "-p"; password; name].
Definition set_search_list : list string :=
  ["security"; "list-keychains"; "-d"; "user"; "-s";
   TEMP_KEYCHAIN; "login.keychain"].
Definition export_identities (password output : string) : list string :=
  ["security"; "export"; "-k"; "login.keychain"; "-t"; "identities";
   "-f"; "pkcs12"; "-P"; password; "-o"; output].
Definition import_bundle (bundle password : string) : list string :=
  ["security"; "import"; bundle; "-k"; VERIFY_KEYCHAIN; "-P"; password;
   "-T"; "/usr/bin/codesign"].

Definition path_exists {X} (s : OS X) (path : string) : bool :=
  bool_decide (is_Some (files s !! path)).

(** What one call of [run] with [shell=False] adds to the log. *)
Definition run_events (argv : list string) (result : CompletedProcess)
  : list event :=
  [EPrint ("Running: " +:+ Py.join " " argv); ERun false argv result]
    ++ (if negb (returncode result =? 0)
        then [EPrint ("Error: " +:+ stderr result)]
        else []).

(** The machine after the stale keychain [name], if there is one, has
    been handed to [delete-keychain]. *)
Definition after_stale_keychain {X}
    (spawn : bool -> list string -> OS X -> OS X * Launch)
    (name : string) (s : OS X) : OS X :=
  if path_exists s name then (spawn false (delete_keychain name) s).1 else s.

Definition without_file {X} (path : string) (s : OS X) : OS X :=
  {| files := delete path (files s); ext := ext s |}.

(** The commands of a run that gets as far as the test of the output
    file, on a machine [s], with the two passwords. *)
Definition export_stage_commands {X} (OUTPUT_P12 : string) (s : OS X)
    (temp_pass export_pass : string) : list (list string) :=
  (if path_exists s TEMP_KEYCHAIN
   then [delete_keychain TEMP_KEYCHAIN] else [])
    ++ [create_keychain temp_pass TEMP_KEYCHAIN;
        set_keychain_settings TEMP_KEYCHAIN;
        unlock_keychain temp_pass TEMP_KEYCHAIN;
        set_search_list;
        export_identities export_pass OUTPUT_P12;
        export_identities export_pass OUTPUT_P12].

(** The test of line 103: the file is there and is not empty. *)
Definition bundle_nonempty {X} (s : OS X) (path : string) : bool :=
  match files s !! path with
  | Some data => 0 <? Z.of_nat (length data)
  | None => false
  end.

(** A result with more events in front of its log. *)
Definition prepend {X A} (l : list event) (r : Result X A) : Result X A :=
  {| sys := sys r; log := l ++ log r; out := out r |}.

(** The mapping the loader builds on a machine, and the module-level
    names read from it.  Without a file the mapping stays empty; for a
    file that cannot be decoded the loader raises, and the mapping given
    here is the empty one it started from. *)
Definition config_of {X} (decode : list byte -> option string)
    (ENV_PATH : string) (s : OS X) : gmap string string :=
  match files s !! ENV_PATH with
  | Some data =>
      match decode data with
      | Some text => parse_env text
      | None => ∅
      end
  | None => ∅
  end.

(** The configuration file, if there is one, is valid text. *)
Definition loads {X} (decode : list byte -> option string)
    (ENV_PATH : string) (s : OS X) : Prop :=
  forall data, files s !! ENV_PATH = Some data -> is_Some (decode data).

(** The exit status of the process: 0 when the script falls through, the
    argument of [sys.exit], and 1 when an exception escapes (the
    interpreter prints the traceback and exits with 1). *)
Definition exit_code {A} (o : outcome A) : Z :=
  match o with
  | Ret _ => 0
  | Exit status => status
  | Raise _ => 1
  end.


(** A utility every call of which returns: the program starts, runs to
    its end and writes text that can be decoded. *)
Definition dependable {X}
    (spawn : bool -> list string -> OS X -> OS X * Launch) : Prop :=
  forall shell argv s, exists e, (spawn shell argv s).2 = Finished e.

Definition globals_of (env_vars : gmap string string) : Globals :=
  {| TARGET_HASH := env_vars !! "APPLE_CERT_HASH";
     EXPORT_PASS := env_vars !! "APPLE_CERT_EXPORT_PASS";
     TEMP_PASS := env_vars !! "APPLE_TEMP_KEYCHAIN_PASS" |}.

Section Stages.

Context {X : Type}.
Variable spawn : bool -> list string -> OS X -> OS X * Launch.
Variable str_of_list : list (option string) -> string.
Variables OUTPUT_P12 OUTPUT_B64 : string.
Variable g : Globals.

(** [main] up to and including the two export calls (lines 49-101),
    and up to the test of the output file (line 109). *)
Definition through_export : M X CompletedProcess :=
  cleanup_old_files spawn str_of_list OUTPUT_P12;;
  create_temp_keychain spawn str_of_list g;;
  export_p12 spawn str_of_list OUTPUT_P12 g.


End Stages.

(** ** Vocabulary for the further properties *)

Definition not_cr (c : ascii) : bool := negb (Ascii.eqb c "013").

(** A text with every LF turned into CR LF: the same file saved with the
    other line ends. *)
Fixpoint to_crlf (s : string) : string :=
  match s with
  | EmptyString => EmptyString
  | String c s' =>
      if Ascii.eqb c "010" then String "013" (String "010" (to_crlf s'))
      else String c (to_crlf s')
  end.

(** A text that can be continued by a new line: it is empty or ends in
    LF. *)
Definition ends_in_newline (s : string) : Prop :=
  s = EmptyString \/ Py.last_char s = Some "010"%char.

(** What the loader guarantees of every entry of the mapping. *)
Definition entry_ok (key val : string) : Prop :=
  key <> EmptyString
  /\ Py.all_chars not_eq_sign key = true
  /\ (forall c, Py.first_char key = Some c ->
        Py.isspace c = false /\ c <> "#"%char)
  /\ (forall c, Py.first_char val = Some c -> is_quote c = false)
  /\ (forall c, Py.last_char val = Some c -> is_quote c = false).

(** Two results that differ at most in what was printed. *)
Definition same_effects {X A} (r r' : Result X A) : Prop :=
  sys r = sys r'
  /\ out r = out r'
  /\ runs (log r) = runs (log r')
  /\ failures (log r) = failures (log r')
  /\ reads (log r) = reads (log r')
  /\ writes (log r) = writes (log r')
  /\ removals (log r) = removals (log r').

(** The line [run] prints before it starts a command. *)
Definition running_line (argv : list string) : string :=
  "Running: " +:+ Py.join " " argv.

(** A log in which every command that was run has its line. *)
Definition announces (l : list event) : Prop :=
  forall argv result,
    (argv, result) ∈ runs l -> EPrint (running_line argv) ∈ l.

(** A computation all of whose logs announce their commands. *)
Definition announcing {X A} (m : M X A) : Prop :=
  forall s, announces (log (m s)).

(** The commands of the verification stage, on the machine [s] it
    starts on. *)
Definition verify_stage_commands {X} (OUTPUT_P12 : string) (s : OS X)
    (export_pass : string) : list (list string) :=
  (if path_exists s VERIFY_KEYCHAIN
   then [delete_keychain VERIFY_KEYCHAIN] else [])
    ++ [create_keychain "verify" VERIFY_KEYCHAIN;
        set_keychain_settings VERIFY_KEYCHAIN;
        import_bundle OUTPUT_P12 export_pass;
        delete_keychain VERIFY_KEYCHAIN].

(** A character a base64 text is made of. *)
Definition base64_char (c : byte) : Prop :=
  c ∈ Base64.alphabet \/ c = Base64.pad.

(** A computation all of whose events satisfy [ok], on every machine. *)
Definition always {X A} (ok : event -> Prop) (m : M X A) : Prop :=
  forall s, Forall ok (log (m s)).

(** The file events of a process that keeps to the three paths of the
    script: it reads the configuration and the bundle, removes the
    bundle and writes the text file. *)
Definition own_file (ENV_PATH OUTPUT_P12 OUTPUT_B64 : string) (e : event)
  : Prop :=
  match e with
  | ERead path _ => path = ENV_PATH \/ path = OUTPUT_P12
  | ERemove path => path = OUTPUT_P12
  | EWrite path _ => path = OUTPUT_B64
  | _ => True
  end.

(** A child process, if the event is one, is the [security] utility
    started from an argument vector, with no shell in between. *)
Definition security_call (e : event) : Prop :=
  match e with
  | ERun shell argv _ => shell = false /\ head argv = Some "security"
  | EFail shell argv _ => shell = false /\ head argv = Some "security"
  | _ => True
  end.

(** The events of a stage that keeps to a set of commands and to the
    files it may remove, read and write. *)
Definition keeps_to (command : list string -> Prop)
    (removable readable writable : string -> Prop) (e : event) : Prop :=
  match e with
  | EPrint _ => True
  | ERun shell argv _ => shell = false /\ command argv
  | EFail shell argv _ => shell = false /\ command argv
  | ERemove path => removable path
  | ERead path _ => readable path
  | EWrite path _ => writable path
  end.

(** The commands before the verification stage: none of them imports
    or touches the verification keychain. *)
Definition before_verification (argv : list string) : Prop :=
  subcommand argv <> Some "import"
  /\ (forall password, argv <> create_keychain password VERIFY_KEYCHAIN)
  /\ argv <> delete_keychain VERIFY_KEYCHAIN.

(** ** A stand-in for the utility, to run the script on examples *)

Module Demo.

Definition ENV_PATH : string := "/repo/.env".
Definition OUTPUT_P12 : string := "/repo/scripts/certificate.p12".
Definition OUTPUT_B64 : string := "/repo/scripts/certificate_base64.txt".

Definition quiet (status : Z) : ProcessExit :=
  {| exit_status := status; out_text := ""; err_text := "" |}.

(** A keychain is a file under its name.  [delete-keychain] removes it
    (status 50 when there is none), [create-keychain] makes an empty
    one, [export] writes [bundle] (when there is one) to the path after
    [-o], the last argument, [import] exits with [import_status]; every
    other command succeeds and changes nothing. *)
Definition child (bundle : option (list byte)) (import_status : Z)
    (argv : list string) (s : OS unit) : OS unit * ProcessExit :=
  match argv with
  | _ :: "delete-keychain" :: name :: _ =>
      (without_file name s, quiet (if path_exists s name then 0 else 50))
  | _ :: "create-keychain" :: _ =>
      ({| files := <[List.last argv "" := []]> (files s); ext := ext s |},
       quiet 0)
  | _ :: "export" :: _ =>
      match bundle with
      | Some data =>
          ({| files := <[List.last argv "" := data]> (files s);
              ext := ext s |}, quiet 0)
      | None => (s, quiet 1)
      end
  | _ :: "import" :: _ => (s, quiet import_status)
  | _ => (s, quiet 0)
  end.

(** The utility is installed and writes plain text: every call
    returns. *)
Definition security (bundle : option (list byte)) (import_status : Z)
    (shell : bool) (argv : list string) (s : OS unit)
  : OS unit * Launch :=
  let '(s', e) := child bundle import_status argv s in (s', Finished e).

(** The codec: ASCII, one character per byte; a byte above 127 is not
    valid. *)
Definition decode (data : list byte) : option string :=
  if forallb (fun b => Base64.z_of b <? 128) data
  then Some (string_of_list_byte data)
  else None.

Definition str_of_list (cmd : list (option string)) : string := "[...]".

Definition machine (fs : list (string * string)) : OS unit :=
  {| files := list_to_map (prod_map id list_byte_of_string <$> fs);
     ext := tt |}.

Definition lf : string := String "010" EmptyString.

Definition full_env : string :=
  "# signing" +:+ lf +:+ "APPLE_CERT_HASH=ABCDEF" +:+ lf
    +:+ "APPLE_CERT_EXPORT_PASS='s3cret'" +:+ lf
    +:+ "APPLE_TEMP_KEYCHAIN_PASS=tmp" +:+ lf.

(** Both required keys and no temporary password. *)
Definition no_temp_env : string :=
  "APPLE_CERT_HASH=ABCDEF" +:+ lf
    +:+ "APPLE_CERT_EXPORT_PASS=s3cret" +:+ lf.

(** The export password is missing. *)
Definition no_pass_env : string :=
  "APPLE_CERT_HASH=ABCDEF" +:+ lf
    +:+ "APPLE_TEMP_KEYCHAIN_PASS=tmp" +:+ lf.

Definition globals : Globals :=
  {| TARGET_HASH := Some "ABCDEF";
     EXPORT_PASS := Some "s3cret";
     TEMP_PASS := Some "tmp" |}.

Definition bundle : list byte := list_byte_of_string "PK12".

(** What an earlier run leaves behind. *)
Definition stale : list (string * string) :=
  [(TEMP_KEYCHAIN, "old"); (VERIFY_KEYCHAIN, "old");
   (OUTPUT_P12, "old"); (OUTPUT_B64, "b2xk")].

Definition exec (bundle : option (list byte)) (import_status : Z)
  : M unit unit :=
  script (security bundle import_status) str_of_list decode
    ENV_PATH OUTPUT_P12 OUTPUT_B64.

Definition exec_main (bundle : option (list byte)) (import_status : Z)
  : M unit unit :=
  main (security bundle import_status) str_of_list
    OUTPUT_P12 OUTPUT_B64 globals.

End Demo.

(** Further examples. *)
Module Sample.

(** The export password is there, and empty. *)
Definition empty_pass_env : string :=
  "APPLE_CERT_HASH=ABCDEF" +:+ Demo.lf
    +:+ "APPLE_CERT_EXPORT_PASS=''" +:+ Demo.lf.

(** A utility that refuses every command and changes nothing. *)
Definition refusing (shell : bool) (argv : list string) (s : OS unit)
  : OS unit * Launch :=
  (s, Finished {| exit_status := 1; out_text := ""; err_text := "denied" |}).



(** A password with a NUL in it. *)
Definition nul_password : string :=
  "s3" +:+ String "000" "cret".

(** A configuration file that is no text: one byte, 255. *)
Definition binary_env : list byte := ["255"%byte].

(** The configuration of [Demo.globals] with another certificate hash. *)
Definition other_hash : Globals :=
  {| TARGET_HASH := Some "012345";
     EXPORT_PASS := Some "s3cret";
     TEMP_PASS := Some "tmp" |}.

End Sample.

(** * Properties *)

(** ** Stripping *)

Lemma append_String (c : ascii) (s t : string) :
  String c s +:+ t = String c (s +:+ t).
Proof. reflexivity. Qed.

Lemma append_Empty (t : string) : EmptyString +:+ t = t.
Proof. reflexivity. Qed.

Section Strip.

Variable p : ascii -> bool.

Lemma lstrip_split (s : string) :
  exists l, s = l +:+ Py.lstrip p s /\ Py.all_chars p l = true.
Proof.
  induction s as [|c s IH]; simpl.
  - exists EmptyString. split; reflexivity.
  - destruct (p c) eqn:Hc.
    + destruct IH as (l & Hs & Hl).
      exists (String c l). split.
      * rewrite append_String. congruence.
      * simpl. rewrite Hc, Hl. reflexivity.
    + exists EmptyString. split; reflexivity.
Qed.

Lemma lstrip_first (s : string) (c : ascii) :
  Py.first_char (Py.lstrip p s) = Some c -> p c = false.
Proof.
  induction s as [|a s IH]; simpl; [discriminate|].
  destruct (p a) eqn:Ha; [exact IH|].
  simpl. intros [= <-]. exact Ha.
Qed.

Lemma rstrip_split (s : string) :
  exists t, s = Py.rstrip p s +:+ t /\ Py.all_chars p t = true.
Proof.
  induction s as [|c s IH]; simpl.
  - exists EmptyString. split; reflexivity.
  - destruct IH as (t & Hs & Ht).
    destruct (Py.rstrip p s) as [|a r] eqn:Hr.
    + destruct (p c) eqn:Hc.
      * exists (String c t). split.
        -- rewrite append_Empty in *. congruence.
        -- simpl. rewrite Hc, Ht. reflexivity.
      * exists t. split; [|exact Ht].
        rewrite append_String, append_Empty in *. congruence.
    + exists t. split; [|exact Ht].
      rewrite !append_String in *. congruence.
Qed.

Lemma rstrip_last (s : string) (c : ascii) :
  Py.last_char (Py.rstrip p s) = Some c -> p c = false.
Proof.
  induction s as [|a s IH]; simpl; [discriminate|].
  destruct (Py.rstrip p s) as [|b r] eqn:Hr.
  - destruct (p a) eqn:Ha; simpl; [discriminate|].
    intros [= <-]. exact Ha.
  - intros H. apply IH. exact H.
Qed.

Lemma rstrip_first (s : string) (c : ascii) :
  Py.first_char (Py.rstrip p s) = Some c -> Py.first_char s = Some c.
Proof.
  destruct s as [|a s]; simpl; [discriminate|].
  destruct (Py.rstrip p s) as [|b r].
  - destruct (p a); simpl; [discriminate|]. intros H; exact H.
  - simpl. intros H; exact H.
Qed.

(** What [strip] does, completely: it cuts a run of class characters
    off each end and what is left neither starts nor ends with one. *)
Lemma strip_with_spec (s : string) :
  exists l t,
    s = l +:+ Py.strip_with p s +:+ t
    /\ Py.all_chars p l = true /\ Py.all_chars p t = true
    /\ (forall c, Py.first_char (Py.strip_with p s) = Some c -> p c = false)
    /\ (forall c, Py.last_char (Py.strip_with p s) = Some c -> p c = false).
Proof.
  unfold Py.strip_with.
  destruct (lstrip_split s) as (l & Hl & Hlp).
  destruct (rstrip_split (Py.lstrip p s)) as (t & Ht & Htp).
  exists l, t. repeat split; try assumption.
  - rewrite <- Ht. exact Hl.
  - intros c Hc. apply rstrip_first in Hc. eapply lstrip_first, Hc.
  - intros c Hc. eapply rstrip_last, Hc.
Qed.

(** A text that neither starts nor ends with a class character is left
    as it is. *)
Lemma lstrip_id (s : string) :
  (forall c, Py.first_char s = Some c -> p c = false) -> Py.lstrip p s = s.
Proof.
  destruct s as [|a s]; simpl; [reflexivity|].
  intros H. rewrite (H a eq_refl). reflexivity.
Qed.

Lemma rstrip_id (s : string) :
  (forall c, Py.last_char s = Some c -> p c = false) -> Py.rstrip p s = s.
Proof.
  induction s as [|a s IH]; simpl; [reflexivity|].
  intros H. destruct s as [|b s].
  - simpl. rewrite (H a eq_refl). reflexivity.
  - rewrite IH by exact H. reflexivity.
Qed.

Lemma strip_with_id (s : string) :
  (forall c, Py.first_char s = Some c -> p c = false) ->
  (forall c, Py.last_char s = Some c -> p c = false) ->
  Py.strip_with p s = s.
Proof.
  intros Hf Hl. unfold Py.strip_with.
  rewrite lstrip_id by exact Hf. apply rstrip_id, Hl.
Qed.

End Strip.

(** A class character at the very end, or at the very start, goes with
    the rest. *)
Lemma rstrip_snoc (p : ascii -> bool) (s : string) (q : ascii) :
  p q = true ->
  Py.rstrip p (s +:+ String q EmptyString) = Py.rstrip p s.
Proof.
  intros Hq. induction s as [|a s IH].
  - rewrite append_Empty. simpl. rewrite Hq. reflexivity.
  - rewrite append_String. simpl. rewrite IH. reflexivity.
Qed.

Lemma lstrip_snoc (p : ascii -> bool) (s : string) (q : ascii) :
  p q = true ->
  Py.lstrip p (s +:+ String q EmptyString) =
    match Py.lstrip p s with
    | EmptyString => EmptyString
    | r => r +:+ String q EmptyString
    end.
Proof.
  intros Hq. induction s as [|a s IH].
  - rewrite append_Empty. simpl. rewrite Hq. reflexivity.
  - rewrite append_String. simpl. destruct (p a); [exact IH|].
    rewrite append_String. reflexivity.
Qed.

Lemma strip_with_wrapped (p : ascii -> bool) (inner : string) (q : ascii) :
  p q = true ->
  Py.strip_with p (String q (inner +:+ String q EmptyString)) =
    Py.strip_with p inner.
Proof.
  intros Hq. unfold Py.strip_with. simpl. rewrite Hq.
  rewrite lstrip_snoc by exact Hq.
  destruct (Py.lstrip p inner) as [|a r] eqn:Hl; [reflexivity|].
  apply rstrip_snoc, Hq.
Qed.

(** ** The pattern of the loader *)

Lemma split_first_eq_app (key rest : string) :
  Py.all_chars not_eq_sign key = true ->
  split_first_eq (key +:+ String "=" rest) = Some (key, rest).
Proof.
  induction key as [|c key IH]; intros Hk.
  - reflexivity.
  - rewrite append_String. simpl in *.
    apply andb_prop in Hk as [Hc Hk]. unfold not_eq_sign in Hc.
    destruct (Ascii.eqb c "=") eqn:E; [discriminate|].
    rewrite (IH Hk). reflexivity.
Qed.

Lemma dot_star_all (val : string) :
  Py.all_chars not_lf val = true -> dot_star val = (val, EmptyString).
Proof.
  induction val as [|c val IH]; simpl; [reflexivity|].
  intros H. apply andb_prop in H as [Hc Hv]. unfold not_lf in Hc.
  destruct (Ascii.eqb c "010"); [discriminate|].
  rewrite (IH Hv). reflexivity.
Qed.

Lemma re_match_kv_line (key val : string) :
  key <> EmptyString ->
  Py.all_chars not_eq_sign key = true ->
  Py.all_chars not_lf val = true ->
  re_match_kv (key +:+ String "=" val) = Some (key, val).
Proof.
  intros Hne Hk Hv. unfold re_match_kv.
  rewrite (split_first_eq_app key val Hk).
  destruct key as [|c key]; [congruence|].
  rewrite (dot_star_all val Hv). reflexivity.
Qed.

(** A line the pattern matches, and that is no comment, is stored under
    its key with the quotes stripped off the value. *)
Lemma load_line_match (env_vars : gmap string string) (line key val : string) :
  Py.startswith "#" (Py.strip line) = false ->
  re_match_kv (Py.strip line) = Some (key, val) ->
  load_line env_vars line =
    <[key := Py.strip_chars quote_chars val]> env_vars.
Proof.
  intros Hc Hm. unfold load_line. rewrite Hc, Hm.
  destruct (Py.strip line) eqn:E; [discriminate Hm|].
  rewrite bool_decide_eq_false_2 by discriminate. reflexivity.
Qed.

(** ** Quotes around configuration values *)

Lemma startswith_hash (c : ascii) (s : string) :
  c <> "#"%char -> Py.startswith "#" (String c s) = false.
Proof.
  intros Hc. unfold Py.startswith. cbn [String.prefix].
  destruct (ascii_dec "#" c) as [E|E]; [congruence|reflexivity].
Qed.

Lemma strip_quotes_unfold (s : string) :
  Py.strip_chars quote_chars s = Py.strip_with is_quote s.
Proof. reflexivity. Qed.

(** C10. For every configuration line the pattern accepts, the stored
    value is the value with every leading and every trailing quote
    character cut off, single or double, matched or not: the value is
    [l ++ stored ++ t] with [l] and [t] made of quote characters only,
    [stored] neither starts nor ends with a quote character, and what is
    inside [stored] is kept as it is. *)
Theorem C10_every_outer_quote_removed
    (env_vars : gmap string string) (line key val : string) :
  Py.startswith "#" (Py.strip line) = false ->
  re_match_kv (Py.strip line) = Some (key, val) ->
  exists l stored t,
    load_line env_vars line !! key = Some stored
    /\ val = l +:+ stored +:+ t
    /\ Py.all_chars is_quote l = true
    /\ Py.all_chars is_quote t = true
    /\ (forall c, Py.first_char stored = Some c -> is_quote c = false)
    /\ (forall c, Py.last_char stored = Some c -> is_quote c = false).
Proof.
  intros Hc Hm.
  destruct (strip_with_spec is_quote val) as (l & t & Hv & Hl & Ht & Hf & Hla).
  exists l, (Py.strip_chars quote_chars val), t.
  rewrite (load_line_match env_vars line key val Hc Hm).
  rewrite lookup_insert_eq.
  repeat split; assumption.
Qed.

(** The example of the claim: a double quote in front and a single quote
    behind, around a text with a quote in its middle. *)
Lemma C10_witness :
  let val := String "034" ("ab'c" +:+ "'") in
  exists l stored t,
    load_line ∅ ("KEY=" +:+ val) !! "KEY" = Some stored
    /\ stored = "ab'c"
    /\ val = l +:+ stored +:+ t
    /\ Py.all_chars is_quote l = true
    /\ Py.all_chars is_quote t = true.
Proof.
  intros val.
  destruct (C10_every_outer_quote_removed ∅ ("KEY=" +:+ val) "KEY" val)
    as (l & stored & t & Hs & Hv & Hl & Ht & _);
    [reflexivity | reflexivity |].
  exists l, stored, t.
  assert (stored = "ab'c") as Hst.
  { vm_compute in Hs. congruence. }
  repeat split; assumption.
Defined.

(** C7, as amended. A value wrapped in a pair of the same quote character
    is stored as the inner text stripped of the quote characters at its
    own two ends; it is stored as the inner text itself when the inner
    text neither starts nor ends with a quote character. *)
Theorem C7_wrapped_value_stored_stripped
    (env_vars : gmap string string) (line key inner : string) (q : ascii) :
  Py.strip line = quoted_line key q inner ->
  is_quote q = true ->
  key <> EmptyString ->
  Py.first_char key <> Some "#"%char ->
  Py.all_chars not_eq_sign key = true ->
  Py.all_chars not_lf inner = true ->
  load_line env_vars line
    = <[key := Py.strip_chars quote_chars inner]> env_vars
  /\ ((forall c, Py.first_char inner = Some c -> is_quote c = false) ->
      (forall c, Py.last_char inner = Some c -> is_quote c = false) ->
      load_line env_vars line !! key = Some inner).
Proof.
  intros Hline Hq Hne Hhash Hk Hin.
  assert (Py.all_chars not_lf (String q (inner +:+ String q EmptyString))
          = true) as Hval.
  { assert (not_lf q = true) as Hnq.
    { revert Hq. unfold is_quote, Py.in_chars, not_lf.
      destruct (Ascii.eqb_spec q "010") as [->|]; [|reflexivity].
      vm_compute. discriminate. }
    simpl. rewrite Hnq. simpl. clear -Hin Hnq.
    induction inner as [|c s IH].
    - rewrite append_Empty. simpl. rewrite Hnq. reflexivity.
    - rewrite append_String. simpl in *.
      apply andb_prop in Hin as [-> Hs]. simpl. apply IH, Hs. }
  assert (load_line env_vars line
          = <[key := Py.strip_chars quote_chars inner]> env_vars) as Hload.
  { rewrite (load_line_match env_vars line key
               (String q (inner +:+ String q EmptyString))).
    - rewrite !strip_quotes_unfold.
      rewrite (strip_with_wrapped is_quote inner q Hq). reflexivity.
    - rewrite Hline. unfold quoted_line.
      destruct key as [|k key]; [congruence|].
      rewrite append_String. apply startswith_hash.
      simpl in Hhash. congruence.
    - rewrite Hline. apply re_match_kv_line; assumption. }
  split; [exact Hload|].
  intros Hf Hl. rewrite Hload, lookup_insert_eq. f_equal.
  rewrite strip_quotes_unfold. apply strip_with_id; assumption.
Qed.

(** C7 on the export password in single quotes. *)
Lemma C7_witness :
  load_line ∅ (quoted_line "APPLE_CERT_EXPORT_PASS" "'" "s3cret")
    !! "APPLE_CERT_EXPORT_PASS" = Some "s3cret".
Proof.
  refine (proj2 (C7_wrapped_value_stored_stripped ∅
                   (quoted_line "APPLE_CERT_EXPORT_PASS" "'" "s3cret")
                   "APPLE_CERT_EXPORT_PASS" "s3cret" "'"
                   _ _ _ _ _ _) _ _).
  - reflexivity.
  - reflexivity.
  - discriminate.
  - discriminate.
  - reflexivity.
  - reflexivity.
  - intros c [= <-]. reflexivity.
  - intros c [= <-]. reflexivity.
Defined.

(** C7 as the claim states it fails where the inner text has a quote
    character at one of its own ends: the value is the text ['a'] wrapped
    in double quotes, and what is stored is [a]. *)
Lemma C7_counterexample :
  let inner := "'a'" in
  let line := quoted_line "KEY" "034" inner in
  is_quote "034" = true
  /\ load_line ∅ line !! "KEY" = Some "a"
  /\ load_line ∅ line !! "KEY" <> Some inner.
Proof. vm_compute. repeat split; congruence. Qed.

(** ** Base64: decoding undoes encoding *)

Module Base64Facts.

Import Base64.

Lemma z_of_range (b : byte) : 0 <= z_of b < 256.
Proof.
  unfold z_of. pose proof (Byte.to_N_bounded b). lia.
Qed.

Lemma z_of_high (b : byte) (k : Z) : 8 <= k -> Z.testbit (z_of b) k = false.
Proof.
  intros Hk. pose proof (z_of_range b) as Hr.
  destruct (Z.eq_dec (z_of b) 0) as [->|Hz]; [apply Z.testbit_0_l|].
  apply Z.bits_above_log2; [lia|].
  apply Z.log2_lt_pow2; [lia|].
  apply Z.lt_le_trans with (2 ^ 8); [simpl; lia|].
  apply Z.pow_le_mono_r; lia.
Qed.

Lemma testbit_63 (i : Z) : 0 <= i -> Z.testbit 63 i = (i <? 6).
Proof. intros Hi. change 63 with (Z.ones 6). apply Z.testbit_ones_nonneg; lia. Qed.

Lemma testbit_255 (i : Z) : 0 <= i -> Z.testbit 255 i = (i <? 8).
Proof. intros Hi. change 255 with (Z.ones 8). apply Z.testbit_ones_nonneg; lia. Qed.

Ltac bit_step :=
  match goal with
  | |- context [Z.testbit ?a ?k] =>
      first
        [ rewrite (Z.testbit_neg_r a k) by lia
        | match a with
          | Z.lor ?x ?y => rewrite (Z.lor_spec x y k)
          | Z.land ?x ?y => rewrite (Z.land_spec x y k)
          | Z.shiftr ?x ?n => rewrite (Z.shiftr_spec x n k) by lia
          | Z.shiftl ?x ?n => rewrite (Z.shiftl_spec x n k) by lia
          | 63 => rewrite (testbit_63 k) by lia
          | 255 => rewrite (testbit_255 k) by lia
          | 0 => rewrite (Z.testbit_0_l k)
          | z_of ?b => rewrite (z_of_high b k) by lia
          end ]
  | |- context [?a <? ?b] =>
      first [ rewrite (proj2 (Z.ltb_lt a b)) by lia
            | rewrite (proj2 (Z.ltb_ge a b)) by lia ]
  end.

Ltac bits :=
  repeat bit_step;
  rewrite ?andb_true_r, ?andb_false_r, ?orb_false_r, ?orb_false_l,
    ?andb_false_l, ?andb_true_l;
  first [ reflexivity | f_equal; lia ].

Lemma pack4_sextets (n : Z) :
  (forall i, 24 <= i -> Z.testbit n i = false) ->
  pack4 (sextet n 18) (sextet n 12) (sextet n 6) (sextet n 0) = n.
Proof.
  intros Hn. unfold pack4, sextet.
  apply Z.bits_inj'; intros i Hi.
  assert (i < 6 \/ 6 <= i < 12 \/ 12 <= i < 18 \/ 18 <= i < 24 \/ 24 <= i)
    as [H|[H|[H|[H|H]]]] by lia.
  5: rewrite (Hn i) by lia.
  all: bits.
Qed.

Lemma pack3_high (a b c : byte) (i : Z) :
  24 <= i -> Z.testbit (pack3 a b c) i = false.
Proof. intros Hi. unfold pack3. bits. Qed.

Lemma land_255_z_of (n : Z) (b : byte) :
  (forall i, 0 <= i < 8 -> Z.testbit n i = Z.testbit (z_of b) i) ->
  byte_of n = b.
Proof.
  intros H. unfold byte_of.
  assert (Z.land n 255 = z_of b) as ->.
  { apply Z.bits_inj'; intros i Hi.
    destruct (Z.lt_ge_cases i 8).
    - rewrite Z.land_spec, testbit_255 by lia. rewrite H by lia.
      rewrite (proj2 (Z.ltb_lt i 8)) by lia. apply andb_true_r.
    - bits. }
  unfold z_of. rewrite N2Z.id, Byte.of_to_N. reflexivity.
Qed.

Lemma unpack3 (a b c : byte) :
  let n := pack3 a b c in
  byte_of (Z.shiftr n 16) = a /\ byte_of (Z.shiftr n 8) = b /\ byte_of n = c.
Proof.
  intros n. subst n. unfold pack3.
  repeat split; apply land_255_z_of; intros i Hi; bits.
Qed.

Lemma sextet_range (n k : Z) : 0 <= sextet n k < 64.
Proof.
  unfold sextet. change 63 with (Z.ones 6).
  rewrite Z.land_ones by lia. apply Z.mod_pos_bound. reflexivity.
Qed.

Lemma alphabet_table :
  forallb (fun k : nat =>
             match value_of (char_of (Z.of_nat k)) with
             | Some v => (v =? Z.of_nat k) && negb (Byte.eqb (char_of (Z.of_nat k)) pad)
             | None => false
             end) (seq 0 64) = true.
Proof. vm_compute. reflexivity. Qed.

Lemma value_of_char_of (v : Z) :
  0 <= v < 64 ->
  value_of (char_of v) = Some v /\ Byte.eqb (char_of v) pad = false.
Proof.
  intros Hv. pose proof alphabet_table as H.
  rewrite forallb_forall in H. specialize (H (Z.to_nat v)).
  rewrite Z2Nat.id in H by lia.
  assert (In (Z.to_nat v) (seq 0 64)) as Hin by (apply in_seq; lia).
  specialize (H Hin).
  destruct (value_of (char_of v)) as [w|]; [|discriminate].
  apply andb_prop in H as [Hw Hp]. apply Z.eqb_eq in Hw. subst w.
  split; [reflexivity|]. destruct (Byte.eqb (char_of v) pad); [discriminate|reflexivity].
Qed.

Lemma decode_sextet (n k : Z) :
  value_of (char_of (sextet n k)) = Some (sextet n k).
Proof. apply value_of_char_of, sextet_range. Qed.

Lemma sextet_not_pad (n k : Z) : Byte.eqb (char_of (sextet n k)) pad = false.
Proof. apply value_of_char_of, sextet_range. Qed.

Lemma pack4_tail2 (a b : byte) :
  let n := Z.lor (Z.shiftl (z_of a) 16) (Z.shiftl (z_of b) 8) in
  let m := pack4 (sextet n 18) (sextet n 12) (sextet n 6) 0 in
  byte_of (Z.shiftr m 16) = a /\ byte_of (Z.shiftr m 8) = b.
Proof.
  intros n m. subst n m. unfold pack4, sextet.
  split; apply land_255_z_of; intros i Hi.
  - assert (i < 2 \/ 2 <= i) as [H|H] by lia; bits.
  - assert (i < 4 \/ 4 <= i) as [H|H] by lia; bits.
Qed.

Lemma pack4_tail1 (a : byte) :
  let n := Z.shiftl (z_of a) 16 in
  byte_of (Z.shiftr (pack4 (sextet n 18) (sextet n 12) 0 0) 16) = a.
Proof.
  intros n. subst n. unfold pack4, sextet.
  apply land_255_z_of; intros i Hi.
  assert (i < 2 \/ 2 <= i) as [H|H] by lia; bits.
Qed.

Lemma b64decode_group (a b c : byte) (rest : list byte) :
  b64decode (b64encode (a :: b :: c :: rest)) =
    match b64decode (b64encode rest) with
    | Some tail => Some (a :: b :: c :: tail)
    | None => None
    end.
Proof.
  cbn [b64encode b64decode].
  rewrite !decode_sextet. cbn [mbind option_bind].
  rewrite !sextet_not_pad.
  destruct (b64decode (b64encode rest)) as [tail|]; cbn [mbind option_bind];
    [|reflexivity].
  rewrite pack4_sextets by (apply pack3_high).
  destruct (unpack3 a b c) as (-> & -> & ->). reflexivity.
Qed.

Theorem b64decode_b64encode (data : list byte) :
  b64decode (b64encode data) = Some data.
Proof.
  assert (forall n (l : list byte), (length l <= n)%nat ->
            b64decode (b64encode l) = Some l) as H.
  { induction n as [|n IH]; intros l Hl.
    - destruct l; [reflexivity|simpl in Hl; lia].
    - destruct l as [|a [|b [|c rest]]].
      + reflexivity.
      + cbn [b64encode b64decode]. rewrite !decode_sextet.
        cbn [mbind option_bind]. change (Byte.eqb pad pad) with true.
        cbv iota. rewrite pack4_tail1. reflexivity.
      + cbn [b64encode b64decode]. rewrite !decode_sextet.
        cbn [mbind option_bind]. rewrite sextet_not_pad.
        cbn [mbind option_bind].
        change (Byte.eqb pad pad) with true. cbv iota.
        destruct (pack4_tail2 a b) as (-> & ->). reflexivity.
      + rewrite b64decode_group. rewrite IH; [reflexivity|].
        simpl in Hl. lia. }
  apply (H (length data)). lia.
Qed.

End Base64Facts.

(** ** Sequencing *)

Section Sequencing.

Context {X : Type}.


(** When the first part falls through, the whole is the rest run on the
    state it left, after its events. *)
Lemma bind_ret_eq {A B} (m : M X A) (k : A -> M X B) (s : OS X) (a : A) :
  out (m s) = Ret a ->
  bind m k s = prepend (log (m s)) (k a (sys (m s))).
Proof. intros H. unfold bind, prepend. rewrite H. reflexivity. Qed.

Lemma bind_assoc {A B C} (m : M X A) (f : A -> M X B) (h : B -> M X C)
    (s : OS X) :
  bind (bind m f) h s = bind m (fun x => bind (f x) h) s.
Proof.
  unfold bind. destruct (out (m s)) as [a|c|e]; simpl; try reflexivity.
  destruct (out (f a (sys (m s)))); simpl; try reflexivity.
  rewrite app_assoc. reflexivity.
Qed.

Lemma bind_ext {A B} (m : M X A) (k k' : A -> M X B) (s : OS X) :
  (forall a s', k a s' = k' a s') -> bind m k s = bind m k' s.
Proof.
  intros H. unfold bind. destruct (out (m s)); try reflexivity.
  rewrite H. reflexivity.
Qed.

Lemma bind_raise_eq {A B} (m : M X A) (k : A -> M X B) (s : OS X) (e : exn) :
  out (m s) = Raise e ->
  bind m k s = {| sys := sys (m s); log := log (m s); out := Raise e |}.
Proof. intros H. unfold bind. rewrite H. reflexivity. Qed.

Lemma bind_eq_ret {A B} (m : M X A) (k : A -> M X B) (s s' : OS X)
    (l : list event) (a : A) :
  m s = {| sys := s'; log := l; out := Ret a |} ->
  bind m k s = prepend l (k a s').
Proof. intros H. unfold bind. rewrite H. reflexivity. Qed.

Lemma bind_eq_raise {A B} (m : M X A) (k : A -> M X B) (s s' : OS X)
    (l : list event) (e : exn) :
  m s = {| sys := s'; log := l; out := Raise e |} ->
  bind m k s = {| sys := s'; log := l; out := Raise e |}.
Proof. intros H. unfold bind. rewrite H. reflexivity. Qed.

Lemma bind_eq_exit {A B} (m : M X A) (k : A -> M X B) (s s' : OS X)
    (l : list event) (c : Z) :
  m s = {| sys := s'; log := l; out := Exit c |} ->
  bind m k s = {| sys := s'; log := l; out := Exit c |}.
Proof. intros H. unfold bind. rewrite H. reflexivity. Qed.

Lemma bind_sys_exit {A B} (c : Z) (k : A -> M X B) (s : OS X) :
  bind (sys_exit c) k s = {| sys := s; log := []; out := Exit c |}.
Proof. reflexivity. Qed.

Lemma prepend_record {A} (l l' : list event) (s : OS X) (o : outcome A) :
  prepend l {| sys := s; log := l'; out := o |} =
    {| sys := s; log := l ++ l'; out := o |}.
Proof. reflexivity. Qed.

Lemma bind_read_bytes {B} (path : string) (data : list byte)
    (k : list byte -> M X B) (s : OS X) :
  files s !! path = Some data ->
  bind (read_bytes path) k s = prepend [ERead path data] (k data s).
Proof. intros H. unfold bind, read_bytes. rewrite H. reflexivity. Qed.

Lemma bind_read_bytes_missing {B} (path : string)
    (k : list byte -> M X B) (s : OS X) :
  files s !! path = None ->
  bind (read_bytes path) k s =
    {| sys := s; log := []; out := Raise FileNotFoundError |}.
Proof. intros H. unfold bind, read_bytes. rewrite H. reflexivity. Qed.

Lemma bind_write_text {B} (path text : string) (k : unit -> M X B)
    (s : OS X) :
  bind (write_text path text) k s =
    prepend [EWrite path (list_byte_of_string text)]
      (k tt {| files := <[path := list_byte_of_string text]> (files s);
               ext := ext s |}).
Proof. reflexivity. Qed.

Lemma bind_print {B} (line : string) (k : unit -> M X B) (s : OS X) :
  bind (print line) k s = prepend [EPrint line] (k tt s).
Proof. reflexivity. Qed.

Lemma bind_ret {A B} (a : A) (k : A -> M X B) (s : OS X) :
  bind (ret a) k s = k a s.
Proof. unfold bind, ret. simpl. destruct (k a s); reflexivity. Qed.

Lemma bind_exists {B} (path : string) (k : bool -> M X B) (s : OS X) :
  bind (os_path_exists path) k s = k (path_exists s path) s.
Proof.
  unfold bind, os_path_exists, path_exists. simpl.
  destruct (k _ s); reflexivity.
Qed.

Lemma log_bind {A B} (m : M X A) (k : A -> M X B) (s : OS X) :
  log (bind m k s) =
    log (m s) ++ match out (m s) with
                 | Ret a => log (k a (sys (m s)))
                 | _ => []
                 end.
Proof.
  unfold bind. destruct (out (m s)); cbn [log]; rewrite ?app_nil_r;
    reflexivity.
Qed.

Lemma runs_app (l l' : list event) : runs (l ++ l') = runs l ++ runs l'.
Proof.
  induction l as [|e l IH]; [reflexivity|].
  destruct e; simpl; rewrite IH; reflexivity.
Qed.

Lemma commands_app (l l' : list event) :
  commands (l ++ l') = commands l ++ commands l'.
Proof.
  induction l as [|e l IH]; [reflexivity|].
  destruct e; simpl; rewrite IH; reflexivity.
Qed.

Lemma failures_app (l l' : list event) :
  failures (l ++ l') = failures l ++ failures l'.
Proof.
  induction l as [|e l IH]; [reflexivity|].
  destruct e; simpl; rewrite IH; reflexivity.
Qed.

Lemma writes_app (l l' : list event) :
  writes (l ++ l') = writes l ++ writes l'.
Proof.
  induction l as [|e l IH]; [reflexivity|].
  destruct e; simpl; rewrite IH; reflexivity.
Qed.

Lemma reads_app (l l' : list event) :
  reads (l ++ l') = reads l ++ reads l'.
Proof.
  induction l as [|e l IH]; [reflexivity|].
  destruct e; simpl; rewrite IH; reflexivity.
Qed.

Lemma removals_app (l l' : list event) :
  removals (l ++ l') = removals l ++ removals l'.
Proof.
  induction l as [|e l IH]; [reflexivity|].
  destruct e; simpl; rewrite IH; reflexivity.
Qed.

End Sequencing.

Lemma all_str_Some (argv : list string) : all_str (Some <$> argv) = Some argv.
Proof.
  induction argv as [|a argv IH]; [reflexivity|].
  rewrite fmap_cons. simpl. rewrite IH. reflexivity.
Qed.

(** ** The command runner *)

Section Runner.

Context {X : Type}.
Variable spawn : bool -> list string -> OS X -> OS X * Launch.
Variable str_of_list : list (option string) -> string.

(** The call returns when the vector is one the library takes and the
    launch finished. *)
Lemma run_finished (cmd : list (option string)) (argv : list string)
    (s : OS X) (e : ProcessExit) :
  all_str cmd = Some argv ->
  argv <> [] ->
  existsb has_nul argv = false ->
  (spawn false argv s).2 = Finished e ->
  run spawn str_of_list cmd false s =
    {| sys := (spawn false argv s).1;
       log := run_events argv (completed argv e);
       out := Ret (completed argv e) |}.
Proof.
  intros H Hne Hnul Hl. unfold run, str_join, subprocess_run, run_events.
  cbn [negb]. rewrite H.
  rewrite (bool_decide_eq_false_2 _ Hne), Hnul. cbn [andb].
  unfold bind, print, ret; cbn [out sys log app].
  destruct (spawn false argv s) as [s' launched]; cbn [fst snd] in *.
  subst launched. cbn [out sys log app completed returncode].
  destruct (exit_status e =? 0); reflexivity.
Qed.

(** When the launch failed the exception escapes, after the line that
    announces the command. *)
Lemma run_failed (cmd : list (option string)) (argv : list string)
    (s : OS X) (err : exn) :
  all_str cmd = Some argv ->
  argv <> [] ->
  existsb has_nul argv = false ->
  (spawn false argv s).2 = Failed err ->
  run spawn str_of_list cmd false s =
    {| sys := (spawn false argv s).1;
       log := [EPrint (running_line argv); EFail false argv err];
       out := Raise err |}.
Proof.
  intros H Hne Hnul Hl. unfold run, str_join, subprocess_run, running_line.
  cbn [negb]. rewrite H.
  rewrite (bool_decide_eq_false_2 _ Hne), Hnul. cbn [andb].
  unfold bind, print, ret; cbn [out sys log app].
  destruct (spawn false argv s) as [s' launched]; cbn [fst snd] in *.
  subst launched. reflexivity.
Qed.

(** An item that is [None] stops [run] at the join of its first line:
    nothing is printed and no process is started. *)
Lemma run_type_error (cmd : list (option string)) (s : OS X) :
  all_str cmd = None ->
  run spawn str_of_list cmd false s = {| sys := s; log := []; out := Raise TypeError |}.
Proof.
  intros H. unfold run, str_join. simpl. rewrite H.
  reflexivity.
Qed.

(** A NUL in an argument stops [subprocess.run] before anything is
    started; the line that announces the command is out by then. *)
Lemma run_value_error (cmd : list (option string)) (argv : list string)
    (s : OS X) :
  all_str cmd = Some argv ->
  argv <> [] ->
  existsb has_nul argv = true ->
  run spawn str_of_list cmd false s =
    {| sys := s; log := [EPrint (running_line argv)];
       out := Raise ValueError |}.
Proof.
  intros H Hne Hnul. unfold run, str_join, subprocess_run, running_line.
  cbn [negb]. rewrite H.
  rewrite (bool_decide_eq_false_2 _ Hne), Hnul. reflexivity.
Qed.

(** So does an empty vector. *)
Lemma run_index_error (cmd : list (option string)) (s : OS X) :
  all_str cmd = Some [] ->
  run spawn str_of_list cmd false s =
    {| sys := s; log := [EPrint (running_line [])];
       out := Raise IndexError |}.
Proof.
  intros H. unfold run, str_join, subprocess_run, running_line.
  cbn [negb]. rewrite H. reflexivity.
Qed.

(** The ways a call of [run] can go. *)
Lemma run_cases (cmd : list (option string)) (s : OS X) :
  (exists argv e,
      all_str cmd = Some argv
      /\ run spawn str_of_list cmd false s =
           {| sys := (spawn false argv s).1;
              log := run_events argv (completed argv e);
              out := Ret (completed argv e) |})
  \/ (exists argv err,
        all_str cmd = Some argv
        /\ run spawn str_of_list cmd false s =
             {| sys := (spawn false argv s).1;
                log := [EPrint (running_line argv); EFail false argv err];
                out := Raise err |})
  \/ (exists lines err,
        run spawn str_of_list cmd false s =
          {| sys := s; log := EPrint <$> lines; out := Raise err |}).
Proof.
  destruct (all_str cmd) as [argv|] eqn:E.
  2:{ right; right. exists [], TypeError. apply run_type_error, E. }
  destruct argv as [|a argv].
  { right; right. exists [running_line []], IndexError.
    apply run_index_error, E. }
  destruct (existsb has_nul (a :: argv)) eqn:Hnul.
  { right; right. exists [running_line (a :: argv)], ValueError.
    apply run_value_error; [exact E|discriminate|exact Hnul]. }
  destruct (spawn false (a :: argv) s).2 as [e|err] eqn:Hl.
  - left. exists (a :: argv), e. split; [reflexivity|].
    apply run_finished; [exact E|discriminate|exact Hnul|exact Hl].
  - right; left. exists (a :: argv), err. split; [reflexivity|].
    apply run_failed; [exact E|discriminate|exact Hnul|exact Hl].
Qed.

(** With a utility every call of which returns. *)
Lemma run_ret_at (cmd : list (option string)) (argv : list string)
    (s : OS X) :
  dependable spawn ->
  all_str cmd = Some argv ->
  argv <> [] ->
  existsb has_nul argv = false ->
  exists result,
    run spawn str_of_list cmd false s =
      {| sys := (spawn false argv s).1;
         log := run_events argv result; out := Ret result |}.
Proof.
  intros Hdep H Hne Hnul. destruct (Hdep false argv s) as [e He].
  rewrite (run_finished cmd argv s e H Hne Hnul He). eauto.
Qed.

Lemma run_ret (cmd : list (option string)) (argv : list string) (s : OS X) :
  dependable spawn ->
  all_str cmd = Some argv ->
  argv <> [] ->
  existsb has_nul argv = false ->
  exists s' result,
    run spawn str_of_list cmd false s =
      {| sys := s'; log := run_events argv result; out := Ret result |}.
Proof.
  intros Hdep H Hne Hnul.
  destruct (run_ret_at cmd argv s Hdep H Hne Hnul) as [result E]. eauto.
Qed.

Lemma runs_run_events (argv : list string) (result : CompletedProcess) :
  runs (run_events argv result) = [(argv, result)].
Proof.
  unfold run_events. simpl.
  destruct (negb (returncode result =? 0)); reflexivity.
Qed.

Lemma failures_run_events (argv : list string) (result : CompletedProcess) :
  failures (run_events argv result) = [].
Proof.
  unfold run_events. simpl.
  destruct (negb (returncode result =? 0)); reflexivity.
Qed.

Lemma commands_run_events (argv : list string) (result : CompletedProcess) :
  commands (run_events argv result) = [argv].
Proof.
  unfold run_events. simpl.
  destruct (negb (returncode result =? 0)); reflexivity.
Qed.

Lemma writes_run_events (argv : list string) (result : CompletedProcess) :
  writes (run_events argv result) = [].
Proof.
  unfold run_events. simpl.
  destruct (negb (returncode result =? 0)); reflexivity.
Qed.

Lemma removals_run_events (argv : list string) (result : CompletedProcess) :
  removals (run_events argv result) = [].
Proof.
  unfold run_events. simpl.
  destruct (negb (returncode result =? 0)); reflexivity.
Qed.

Lemma runs_prints (lines : list string) : runs (EPrint <$> lines) = [].
Proof. induction lines; [reflexivity|exact IHlines]. Qed.

Lemma commands_prints (lines : list string) :
  commands (EPrint <$> lines) = [].
Proof. induction lines; [reflexivity|exact IHlines]. Qed.


(** The library's own switch for the other behaviour: with [check] set,
    a non-zero status raises.  [run] passes [false]. *)
Lemma subprocess_run_check (argv : list string) (shell : bool) (s : OS X)
    (e : ProcessExit) :
  (shell = false -> argv <> []) ->
  existsb has_nul argv = false ->
  (spawn shell argv s).2 = Finished e ->
  exit_status e <> 0 ->
  out (subprocess_run spawn (Some <$> argv) shell true s)
    = Raise CalledProcessError.
Proof.
  intros Hne Hnul Hl H. unfold subprocess_run. rewrite all_str_Some, Hnul.
  assert (negb shell && bool_decide (argv = []) = false) as ->.
  { destruct shell; [reflexivity|].
    cbn [negb andb]. apply bool_decide_eq_false_2, Hne. reflexivity. }
  destruct (spawn shell argv s) as [s' launched]; cbn [fst snd] in *.
  subst launched. cbn [out andb].
  destruct (Z.eqb_spec (exit_status e) 0); [contradiction|reflexivity].
Qed.

End Runner.

(** ** The stages of [main] *)

Ltac exec_pure :=
  repeat first
    [ rewrite bind_print
    | rewrite bind_exists
    | rewrite bind_ret
    | rewrite bind_assoc
    | rewrite bind_sys_exit
    | rewrite prepend_record ].

(** The arguments hold no NUL: the constants by themselves, the
    others by a hypothesis. *)
Ltac nul_free :=
  cbn [existsb];
  repeat match goal with
         | H : has_nul _ = false |- _ => rewrite H
         end;
  reflexivity.

(** One call of [run] with a usable command line and a dependable
    utility: it returns, and the machine after it and its result get
    names. *)
Ltac run_step :=
  match goal with
  | Hdep : dependable ?sp
    |- context [bind (run ?sp ?sol ?cmd false) ?k ?s] =>
      let s' := fresh "s" in
      let res := fresh "result" in
      let E := fresh "E" in
      edestruct (run_ret sp sol cmd _ s Hdep eq_refl) as (s' & res & E);
      [discriminate | nul_free
      | rewrite (bind_eq_ret _ _ _ _ _ _ E); clear E]
  end.

(** The same, with the machine after the command written out. *)
Ltac run_step_at :=
  match goal with
  | Hdep : dependable ?sp
    |- context [bind (run ?sp ?sol ?cmd false) ?k ?s] =>
      let res := fresh "result" in
      let E := fresh "E" in
      edestruct (run_ret_at sp sol cmd _ s Hdep eq_refl) as (res & E);
      [discriminate | nul_free
      | rewrite (bind_eq_ret _ _ _ _ _ _ E); clear E]
  end.

Ltac exec_runs := repeat first [ progress exec_pure | run_step ].

Lemma commands_print (line : string) (l : list event) :
  commands (EPrint line :: l) = commands l.
Proof. reflexivity. Qed.

Create Rewrite HintDb logs.
#[local] Hint Rewrite @commands_app @writes_app @removals_app @runs_app
  @failures_app @runs_run_events @writes_run_events @removals_run_events
  @commands_run_events @failures_run_events @commands_print app_nil_r : logs.

Ltac logs := repeat progress (simpl; autorewrite with logs).

#[local] Opaque run_events.

Lemma OS_eta {X} (s : OS X) : {| files := files s; ext := ext s |} = s.
Proof. destruct s; reflexivity. Qed.

(** The stages with a utility every call of which returns, and a path
    of the bundle that holds no NUL, as every path does. *)
Section StageFacts.

Context {X : Type}.
Variable spawn : bool -> list string -> OS X -> OS X * Launch.
Variable str_of_list : list (option string) -> string.
Variables OUTPUT_P12 OUTPUT_B64 : string.
Variable g : Globals.
Hypothesis Hdep : dependable spawn.
Hypothesis P12_nul : has_nul OUTPUT_P12 = false.

Lemma remove_if_exists (path : string) (s : OS X) :
  (if path_exists s path then os_remove path else ret tt) s =
    {| sys := without_file path s;
       log := if path_exists s path then [ERemove path] else [];
       out := Ret tt |}.
Proof.
  unfold path_exists, os_remove, without_file, ret.
  destruct (files s !! path) as [data|] eqn:E.
  - rewrite bool_decide_eq_true_2 by eauto. rewrite E. reflexivity.
  - rewrite bool_decide_eq_false_2 by (intros [? ?]; congruence).
    rewrite delete_id by exact E. rewrite OS_eta. reflexivity.
Qed.

(** Lines 49-53. *)
Lemma cleanup_eq (s : OS X) :
  let s1 := after_stale_keychain spawn TEMP_KEYCHAIN s in
  exists l,
    cleanup_old_files spawn str_of_list OUTPUT_P12 s =
      {| sys := without_file OUTPUT_P12 s1; log := l; out := Ret tt |}
    /\ commands l =
         (if path_exists s TEMP_KEYCHAIN
          then [delete_keychain TEMP_KEYCHAIN] else [])
    /\ writes l = []
    /\ removals l =
         (if path_exists s1 OUTPUT_P12 then [OUTPUT_P12] else []).
Proof.
  unfold cleanup_old_files, after_stale_keychain. exec_pure.
  destruct (path_exists s TEMP_KEYCHAIN) eqn:Ht; exec_pure;
    [run_step_at; exec_pure|];
    rewrite remove_if_exists; unfold prepend; simpl;
    eexists; (split; [reflexivity|]); logs;
    repeat split; try reflexivity; unfold delete_keychain;
    match goal with
    | |- context [path_exists ?s0 OUTPUT_P12] =>
        destruct (path_exists s0 OUTPUT_P12); reflexivity
    end.
Qed.

(** Lines 55-63. *)
Lemma create_temp_keychain_eq (s : OS X) (password : string) :
  TEMP_PASS g = Some password ->
  has_nul password = false ->
  exists s' l,
    create_temp_keychain spawn str_of_list g s =
      {| sys := s'; log := l; out := Ret tt |}
    /\ commands l =
         [create_keychain password TEMP_KEYCHAIN;
          set_keychain_settings TEMP_KEYCHAIN;
          unlock_keychain password TEMP_KEYCHAIN;
          set_search_list]
    /\ writes l = [] /\ removals l = [].
Proof.
  intros H Hnul. unfold create_temp_keychain. rewrite H. exec_runs.
  unfold ret. exec_pure.
  eexists; eexists; (split; [reflexivity|]); logs.
  repeat split; reflexivity.
Qed.

(** Without the temporary password the first [run] of the stage stops
    at its own first line. *)
Lemma create_temp_keychain_type_error (s : OS X) :
  TEMP_PASS g = None ->
  create_temp_keychain spawn str_of_list g s =
    {| sys := s;
       log := [EPrint ("🔐 Creating temporary keychain: " +:+ TEMP_KEYCHAIN)];
       out := Raise TypeError |}.
Proof.
  intros H. unfold create_temp_keychain. rewrite H. exec_pure.
  rewrite (bind_raise_eq _ _ _ TypeError);
    rewrite run_type_error by reflexivity; reflexivity.
Qed.

(** Lines 75-101. *)
Lemma export_p12_eq (s : OS X) (password : string) :
  EXPORT_PASS g = Some password ->
  has_nul password = false ->
  exists s' l result,
    export_p12 spawn str_of_list OUTPUT_P12 g s =
      {| sys := s'; log := l; out := Ret result |}
    /\ commands l =
         [export_identities password OUTPUT_P12;
          export_identities password OUTPUT_P12]
    /\ writes l = [] /\ removals l = [].
Proof.
  intros H Hnul. unfold export_p12, CMD. rewrite H. exec_runs.
  unfold ret. exec_pure.
  eexists; eexists; eexists; (split; [reflexivity|]); logs.
  repeat split; reflexivity.
Qed.

(** Lines 103-109. *)
Lemma check_p12_eq (result : CompletedProcess) (s : OS X) :
  exists l,
    check_p12 OUTPUT_P12 result s =
      {| sys := s; log := l;
         out := if bundle_nonempty s OUTPUT_P12 then Ret tt else Exit 1 |}
    /\ commands l = [] /\ writes l = [] /\ removals l = [].
Proof.
  unfold check_p12, bundle_nonempty. exec_pure. unfold path_exists.
  destruct (files s !! OUTPUT_P12) as [data|] eqn:E.
  - rewrite bool_decide_eq_true_2 by eauto.
    unfold bind, os_path_getsize, ret, print, sys_exit; simpl.
    rewrite E; simpl.
    destruct (0 <? Z.of_nat (length data)); simpl;
      eexists; (split; [reflexivity|]); repeat split; reflexivity.
  - rewrite bool_decide_eq_false_2 by (intros [? ?]; congruence).
    unfold bind, ret, print, sys_exit; simpl.
    eexists; (split; [reflexivity|]); repeat split; reflexivity.
Qed.

(** Lines 139-155. *)
Lemma read_and_encode_eq (s : OS X) :
  match files s !! OUTPUT_P12 with
  | Some content =>
      exists l,
        read_and_encode OUTPUT_P12 OUTPUT_B64 s =
          {| sys := {| files := <[OUTPUT_B64 := Base64.b64encode content]>
                                  (files s);
                       ext := ext s |};
             log := l; out := Ret tt |}
        /\ commands l = []
        /\ writes l = [(OUTPUT_B64, Base64.b64encode content)]
        /\ reads l = [(OUTPUT_P12, content)]
        /\ removals l = []
  | None =>
      read_and_encode OUTPUT_P12 OUTPUT_B64 s =
        {| sys := s; log := []; out := Raise FileNotFoundError |}
  end.
Proof.
  unfold read_and_encode.
  destruct (files s !! OUTPUT_P12) as [content|] eqn:E.
  - rewrite (bind_read_bytes _ content) by exact E.
    rewrite !bind_print, bind_write_text, !bind_print.
    rewrite list_byte_of_string_of_list_byte.
    unfold print. rewrite !prepend_record.
    eexists; (split; [reflexivity|]); repeat split; reflexivity.
  - apply bind_read_bytes_missing, E.
Qed.

End StageFacts.

(** ** Whole runs *)

Section RunFacts.

Context {X : Type}.
Variable spawn : bool -> list string -> OS X -> OS X * Launch.
Variable str_of_list : list (option string) -> string.
Variable decode : list byte -> option string.
Variables ENV_PATH OUTPUT_P12 OUTPUT_B64 : string.

(** [main] is its first stages followed by the rest. *)
Lemma main_from_export (g : Globals) (s : OS X) :
  main spawn str_of_list OUTPUT_P12 OUTPUT_B64 g s =
    bind (through_export spawn str_of_list OUTPUT_P12 g)
      (fun result =>
         check_p12 OUTPUT_P12 result;;
         verify_p12 spawn str_of_list OUTPUT_P12 g;;
         read_and_encode OUTPUT_P12 OUTPUT_B64) s.
Proof.
  unfold main, through_export. rewrite bind_assoc.
  apply bind_ext; intros _ s1. rewrite bind_assoc. reflexivity.
Qed.


(** Lines 9-24: the loader reads and prints; it changes nothing. *)
Lemma load_env_eq (s : OS X) :
  loads decode ENV_PATH s ->
  exists l,
    load_env decode ENV_PATH s =
      {| sys := s; log := l; out := Ret (config_of decode ENV_PATH s) |}
    /\ commands l = [] /\ writes l = [] /\ removals l = [].
Proof.
  intros Hloads. unfold load_env, config_of. exec_pure. unfold path_exists.
  destruct (files s !! ENV_PATH) as [data|] eqn:E.
  - rewrite bool_decide_eq_true_2 by eauto.
    destruct (Hloads data E) as [text Ht].
    unfold bind, print, read_text, read_bytes, ret, bind; simpl.
    rewrite E; simpl. rewrite Ht; simpl.
    eexists; (split; [reflexivity|]); repeat split; reflexivity.
  - rewrite bool_decide_eq_false_2 by (intros [? ?]; congruence).
    unfold bind, print, ret; simpl.
    eexists; (split; [reflexivity|]); repeat split; reflexivity.
Qed.

(** A file that is no text stops the loader, and the script, at the
    read. *)
Lemma load_env_undecodable (s : OS X) (data : list byte) :
  files s !! ENV_PATH = Some data ->
  decode data = None ->
  load_env decode ENV_PATH s =
    {| sys := s;
       log := [EPrint ("📄 Loading config from " +:+ ENV_PATH +:+ "...");
               ERead ENV_PATH data];
       out := Raise UnicodeDecodeError |}.
Proof.
  intros E Hd. unfold load_env. exec_pure. unfold path_exists.
  rewrite bool_decide_eq_true_2 by eauto.
  unfold bind, print, read_text, read_bytes, ret, bind; simpl.
  rewrite E; simpl. rewrite Hd; simpl. reflexivity.
Qed.

Lemma script_undecodable (s : OS X) (data : list byte) :
  files s !! ENV_PATH = Some data ->
  decode data = None ->
  script spawn str_of_list decode ENV_PATH OUTPUT_P12 OUTPUT_B64 s =
    {| sys := s;
       log := [EPrint ("📄 Loading config from " +:+ ENV_PATH +:+ "...");
               ERead ENV_PATH data];
       out := Raise UnicodeDecodeError |}.
Proof.
  intros E Hd. unfold script.
  apply bind_eq_raise, load_env_undecodable; assumption.
Qed.

Lemma loads_or_not (s : OS X) :
  loads decode ENV_PATH s
  \/ exists data, files s !! ENV_PATH = Some data /\ decode data = None.
Proof.
  unfold loads. destruct (files s !! ENV_PATH) as [data|].
  - destruct (decode data) as [text|] eqn:E.
    + left. intros d [= <-]. rewrite E. eauto.
    + right. eauto.
  - left. intros d [=].
Qed.

(** A mapping with a key in it has been loaded. *)
Lemma config_of_loads (s : OS X) (key val : string) :
  config_of decode ENV_PATH s !! key = Some val -> loads decode ENV_PATH s.
Proof.
  unfold config_of, loads. intros H data E. rewrite E in H.
  destruct (decode data); [eauto|]. rewrite lookup_empty in H. discriminate.
Qed.

(** Lines 26-39 and the call of [main]. *)
Lemma script_eq (s : OS X) :
  loads decode ENV_PATH s ->
  let g := globals_of (config_of decode ENV_PATH s) in
  exists l,
    commands l = [] /\ writes l = [] /\ removals l = []
    /\ script spawn str_of_list decode ENV_PATH OUTPUT_P12 OUTPUT_B64 s =
         if Py.truthy (TARGET_HASH g) && Py.truthy (EXPORT_PASS g)
         then prepend l (main spawn str_of_list OUTPUT_P12 OUTPUT_B64 g s)
         else {| sys := s; log := l; out := Exit 1 |}.
Proof.
  intros Hloads g. destruct (load_env_eq s Hloads) as (l0 & E0 & C0 & W0 & R0).
  unfold script. rewrite (bind_eq_ret _ _ _ _ _ _ E0).
  fold (globals_of (config_of decode ENV_PATH s)). fold g.
  destruct (Py.truthy (TARGET_HASH g)), (Py.truthy (EXPORT_PASS g));
    cbn [negb orb andb]; rewrite bind_print; unfold prepend; simpl.
  - exists (l0 ++ [EPrint ("ℹ️  Using Certificate Hash: "
                            +:+ Py.str (TARGET_HASH g))]).
    rewrite !commands_app, !writes_app, !removals_app, C0, W0, R0.
    repeat split; try reflexivity.
    rewrite <- app_assoc. reflexivity.
  - eexists; split; [|split; [|split; [|reflexivity]]];
      rewrite ?commands_app, ?writes_app, ?removals_app, ?C0, ?W0, ?R0;
      reflexivity.
  - eexists; split; [|split; [|split; [|reflexivity]]];
      rewrite ?commands_app, ?writes_app, ?removals_app, ?C0, ?W0, ?R0;
      reflexivity.
  - eexists; split; [|split; [|split; [|reflexivity]]];
      rewrite ?commands_app, ?writes_app, ?removals_app, ?C0, ?W0, ?R0;
      reflexivity.
Qed.

End RunFacts.

(** ** What every run keeps to *)

(** Facts about all the events of a run, whatever the utility does and
    wherever the run stops. *)
Section Confinement.

Context {X : Type}.
Variable spawn : bool -> list string -> OS X -> OS X * Launch.
Variable str_of_list : list (option string) -> string.
Variable decode : list byte -> option string.
Variables ENV_PATH OUTPUT_P12 OUTPUT_B64 : string.
Variable ok : event -> Prop.
Variable command : list string -> Prop.
Hypothesis ok_print : forall line, ok (EPrint line).
Hypothesis ok_run :
  forall argv result, command argv -> ok (ERun false argv result).
Hypothesis ok_fail :
  forall argv err, command argv -> ok (EFail false argv err).

Lemma always_bind {A B} (m : M X A) (k : A -> M X B) :
  always ok m -> (forall a, always ok (k a)) -> always ok (bind m k).
Proof.
  intros Hm Hk s. unfold bind.
  destruct (out (m s)) as [a|c|e]; cbn [log]; [|apply Hm..].
  apply Forall_app. split; [apply Hm|apply Hk].
Qed.

Lemma always_if {A} (b : bool) (m m' : M X A) :
  always ok m -> always ok m' -> always ok (if b then m else m').
Proof. destruct b; auto. Qed.

Lemma always_print (line : string) : always ok (print (X:=X) line).
Proof. intros s. constructor; [apply ok_print|constructor]. Qed.

Lemma always_ret {A} (a : A) : always ok (ret (X:=X) a).
Proof. intros s. constructor. Qed.

Lemma always_sys_exit {A} (status : Z) :
  always ok (sys_exit (X:=X) (A:=A) status).
Proof. intros s. constructor. Qed.

Lemma always_os_path_exists (path : string) :
  always ok (os_path_exists (X:=X) path).
Proof. intros s. constructor. Qed.

Lemma always_os_path_getsize (path : string) :
  always ok (os_path_getsize (X:=X) path).
Proof.
  intros s. unfold os_path_getsize.
  destruct (files s !! path); constructor.
Qed.

Lemma always_os_remove (path : string) :
  ok (ERemove path) -> always ok (os_remove (X:=X) path).
Proof.
  intros H s. unfold os_remove.
  destruct (files s !! path); cbn [log];
    [constructor; [exact H|]|]; constructor.
Qed.

Lemma always_read_bytes (path : string) :
  (forall data, ok (ERead path data)) -> always ok (read_bytes (X:=X) path).
Proof.
  intros H s. unfold read_bytes.
  destruct (files s !! path); cbn [log];
    [constructor; [apply H|]|]; constructor.
Qed.

Lemma always_read_text (path : string) :
  (forall data, ok (ERead path data)) ->
  always ok (read_text (X:=X) decode path).
Proof.
  intros H. unfold read_text. apply always_bind.
  - apply always_read_bytes, H.
  - intros data s. destruct (decode data); constructor.
Qed.

Lemma always_write_text (path text : string) :
  (forall data, ok (EWrite path data)) ->
  always ok (write_text (X:=X) path text).
Proof.
  intros H s. unfold write_text. cbn [log].
  constructor; [apply H|constructor].
Qed.

Lemma Forall_prints (lines : list string) : Forall ok (EPrint <$> lines).
Proof.
  induction lines as [|line lines IH]; [constructor|].
  rewrite fmap_cons. constructor; [apply ok_print|exact IH].
Qed.

Lemma always_run (cmd : list (option string)) :
  (forall argv, all_str cmd = Some argv -> command argv) ->
  always ok (run spawn str_of_list cmd false).
Proof.
  intros H s.
  destruct (run_cases spawn str_of_list cmd s)
    as [(argv & e & E & ->) | [(argv & err & E & ->) | (lines & err & ->)]];
    cbn [log].
  - with_strategy transparent [run_events] unfold run_events.
    apply Forall_app. split.
    + constructor; [apply ok_print|].
      constructor; [apply ok_run, H, E|constructor].
    + destruct (negb _); [|constructor].
      constructor; [apply ok_print|constructor].
  - constructor; [apply ok_print|].
    constructor; [apply ok_fail, H, E|constructor].
  - apply Forall_prints.
Qed.

(** The command line of a call, read off its items. *)
Ltac command_of :=
  let argv := fresh "argv" in
  let E := fresh "E" in
  intros argv E;
  repeat match type of E with
         | context [TEMP_PASS ?g] => destruct (TEMP_PASS g)
         | context [EXPORT_PASS ?g] => destruct (EXPORT_PASS g)
         end;
  cbn [all_str] in E;
  first [ discriminate E
        | injection E as <-;
          match goal with
          | H : _ |- _ => apply H
          end ].

Ltac always_step :=
  first
    [ apply always_run; command_of
    | apply always_print
    | apply always_ret
    | apply always_sys_exit
    | apply always_os_path_exists
    | apply always_os_path_getsize
    | apply always_os_remove
    | apply always_read_text
    | apply always_read_bytes
    | apply always_write_text
    | apply always_if
    | apply always_bind; [|intros ?]
    | progress cbv zeta ].

(** Lines 9-24. *)
Lemma load_env_always :
  (forall data, ok (ERead ENV_PATH data)) ->
  always ok (load_env (X:=X) decode ENV_PATH).
Proof. intros Hread. unfold load_env. repeat always_step; assumption. Qed.

(** Lines 49-53. *)
Lemma cleanup_always :
  command (delete_keychain TEMP_KEYCHAIN) ->
  ok (ERemove OUTPUT_P12) ->
  always ok (cleanup_old_files spawn str_of_list OUTPUT_P12).
Proof.
  intros Hdelete Hremove. unfold cleanup_old_files.
  repeat always_step; assumption.
Qed.

(** Lines 55-63. *)
Lemma create_temp_keychain_always (g : Globals) :
  (forall password, command (create_keychain password TEMP_KEYCHAIN)) ->
  command (set_keychain_settings TEMP_KEYCHAIN) ->
  (forall password, command (unlock_keychain password TEMP_KEYCHAIN)) ->
  command set_search_list ->
  always ok (create_temp_keychain spawn str_of_list g).
Proof.
  intros Hcreate Hsettings Hunlock Hlist. unfold create_temp_keychain.
  repeat always_step.
Qed.

(** Lines 75-101. *)
Lemma export_p12_always (g : Globals) :
  (forall password, command (export_identities password OUTPUT_P12)) ->
  always ok (export_p12 spawn str_of_list OUTPUT_P12 g).
Proof.
  intros Hexport. unfold export_p12, CMD. repeat always_step.
Qed.

(** Lines 103-109. *)
Lemma check_p12_always (result : CompletedProcess) :
  always ok (check_p12 (X:=X) OUTPUT_P12 result).
Proof. unfold check_p12. repeat always_step. Qed.

(** Lines 111-137. *)
Lemma verify_p12_always (g : Globals) :
  command (delete_keychain VERIFY_KEYCHAIN) ->
  command (create_keychain "verify" VERIFY_KEYCHAIN) ->
  command (set_keychain_settings VERIFY_KEYCHAIN) ->
  (forall password, command (import_bundle OUTPUT_P12 password)) ->
  always ok (verify_p12 spawn str_of_list OUTPUT_P12 g).
Proof.
  intros Hdelete Hcreate Hsettings Himport. unfold verify_p12, verify_cmd.
  repeat always_step.
Qed.

(** Lines 139-155. *)
Lemma read_and_encode_always :
  (forall data, ok (ERead OUTPUT_P12 data)) ->
  (forall data, ok (EWrite OUTPUT_B64 data)) ->
  always ok (read_and_encode (X:=X) OUTPUT_P12 OUTPUT_B64).
Proof.
  intros Hread Hwrite. unfold read_and_encode.
  repeat always_step; assumption.
Qed.

Lemma through_export_always (g : Globals) :
  command (delete_keychain TEMP_KEYCHAIN) ->
  ok (ERemove OUTPUT_P12) ->
  (forall password, command (create_keychain password TEMP_KEYCHAIN)) ->
  command (set_keychain_settings TEMP_KEYCHAIN) ->
  (forall password, command (unlock_keychain password TEMP_KEYCHAIN)) ->
  command set_search_list ->
  (forall password, command (export_identities password OUTPUT_P12)) ->
  always ok (through_export spawn str_of_list OUTPUT_P12 g).
Proof.
  intros. unfold through_export.
  apply always_bind; [apply cleanup_always; assumption|intros _].
  apply always_bind; [apply create_temp_keychain_always; assumption|intros _].
  apply export_p12_always; assumption.
Qed.

Lemma main_always (g : Globals) :
  (forall argv, head argv = Some "security" -> command argv) ->
  ok (ERemove OUTPUT_P12) ->
  (forall data, ok (ERead OUTPUT_P12 data)) ->
  (forall data, ok (EWrite OUTPUT_B64 data)) ->
  always ok (main spawn str_of_list OUTPUT_P12 OUTPUT_B64 g).
Proof.
  intros Hsecurity Hremove Hread Hwrite. unfold main.
  apply always_bind;
    [apply cleanup_always; [apply Hsecurity; reflexivity|assumption]
    |intros _].
  apply always_bind;
    [apply create_temp_keychain_always; intros; apply Hsecurity; reflexivity
    |intros _].
  apply always_bind;
    [apply export_p12_always; intros; apply Hsecurity; reflexivity
    |intros result].
  apply always_bind; [apply check_p12_always|intros _].
  apply always_bind;
    [apply verify_p12_always; intros; apply Hsecurity; reflexivity
    |intros _].
  apply read_and_encode_always; assumption.
Qed.

(** Whatever holds of a printed line, of a call of [security] without a
    shell and of the file events on the script's own paths holds of
    every event of every run. *)
Lemma script_always :
  (forall argv, head argv = Some "security" -> command argv) ->
  ok (ERemove OUTPUT_P12) ->
  (forall data, ok (ERead ENV_PATH data)) ->
  (forall data, ok (ERead OUTPUT_P12 data)) ->
  (forall data, ok (EWrite OUTPUT_B64 data)) ->
  always ok (script spawn str_of_list decode ENV_PATH OUTPUT_P12 OUTPUT_B64).
Proof.
  intros Hsecurity Hremove Henv Hbundle Hwrite. unfold script.
  apply always_bind; [apply load_env_always; assumption|intros env_vars].
  cbv zeta. apply always_if.
  - apply always_bind; [apply always_print|intros _].
    apply always_sys_exit.
  - apply always_bind; [apply always_print|intros _].
    apply main_always; assumption.
Qed.

End Confinement.

(** What a list of events that keeps to its commands and files says of
    the commands, removals and writes in it. *)
Section KeepsTo.

Variable command : list string -> Prop.
Variables removable readable writable : string -> Prop.

Lemma keeps_to_commands (l : list event) (argv : list string) :
  Forall (keeps_to command removable readable writable) l ->
  argv ∈ commands l -> command argv.
Proof.
  induction 1 as [|e l He _ IH]; [intros H; inversion H|].
  destruct e; cbn [commands]; try exact IH;
    intros H; apply elem_of_cons in H as [->|H]; auto; apply He.
Qed.


Lemma keeps_to_removals (l : list event) (path : string) :
  Forall (keeps_to command removable readable writable) l ->
  path ∈ removals l -> removable path.
Proof.
  induction 1 as [|e l He _ IH]; [intros H; inversion H|].
  destruct e; cbn [removals]; try exact IH.
  intros H; apply elem_of_cons in H as [->|H]; auto.
Qed.

Lemma keeps_to_no_writes (l : list event) :
  (forall path, ~ writable path) ->
  Forall (keeps_to command removable readable writable) l ->
  writes l = [].
Proof.
  intros Hw. induction 1 as [|e l He _ IH]; [reflexivity|].
  destruct e; cbn [writes]; try exact IH.
  destruct (Hw _ He).
Qed.

End KeepsTo.

(** ** The claims about runs *)

Section Claims.

Context {X : Type}.
Variable spawn : bool -> list string -> OS X -> OS X * Launch.
Variable str_of_list : list (option string) -> string.
Variable decode : list byte -> option string.
Variables ENV_PATH OUTPUT_P12 OUTPUT_B64 : string.

(** C2. When the configuration lacks the certificate hash or the export
    password, the process ends with exit status 1 (by [sys.exit(1)]
    when the file, if there is one, could be read as text), and it has
    started no child process, written no file and removed none: the
    machine is as it was. *)
Theorem C2_missing_key_exits_before_any_command (s : OS X) :
  let env_vars := config_of decode ENV_PATH s in
  env_vars !! "APPLE_CERT_HASH" = None
  \/ env_vars !! "APPLE_CERT_EXPORT_PASS" = None ->
  let r := script spawn str_of_list decode ENV_PATH OUTPUT_P12 OUTPUT_B64 s in
  exit_code (out r) = 1
  /\ (loads decode ENV_PATH s -> out r = Exit 1)
  /\ commands (log r) = []
  /\ writes (log r) = []
  /\ removals (log r) = []
  /\ sys r = s.
Proof.
  intros env_vars Hmissing r. subst r.
  destruct (loads_or_not decode ENV_PATH s) as [Hloads|(data & E & Hd)].
  - destruct (script_eq spawn str_of_list decode ENV_PATH OUTPUT_P12
                OUTPUT_B64 s Hloads)
      as (l & Hc & Hw & Hr & ->).
    assert (Py.truthy (TARGET_HASH (globals_of env_vars))
            && Py.truthy (EXPORT_PASS (globals_of env_vars)) = false) as Hf.
    { unfold globals_of; simpl.
      destruct Hmissing as [-> | ->]; simpl; [reflexivity|].
      apply andb_false_r. }
    fold env_vars. rewrite Hf. simpl. repeat split; assumption.
  - rewrite (script_undecodable spawn str_of_list decode ENV_PATH OUTPUT_P12
               OUTPUT_B64 s data E Hd).
    cbn [out log sys exit_code]. split; [reflexivity|].
    split; [|repeat split; reflexivity].
    intros Hloads. destruct (Hloads data E) as [text Ht]. congruence.
Qed.

(** Whatever the configuration and the utility, up to the end of the
    export stage the process hands over no command that imports or
    touches the verification keychain, reads and writes no file and
    removes at most the bundle. *)
Lemma export_stage_keeps (g : Globals) (s : OS X) :
  Forall (keeps_to before_verification (fun path => path = OUTPUT_P12)
            (fun _ => False) (fun _ => False))
    (log (through_export spawn str_of_list OUTPUT_P12 g s)).
Proof.
  apply (through_export_always spawn str_of_list OUTPUT_P12 _
           before_verification);
    try (intros; exact I);
    try (intros; split; [reflexivity|assumption]);
    try reflexivity;
    intros; unfold before_verification;
    (split; [cbn; discriminate|]);
    (split; [intros ?|]); discriminate.
Qed.

(** The verification stage touches no file itself. *)
Lemma verify_stage_keeps (g : Globals) (s : OS X) :
  Forall (keeps_to (fun _ => True) (fun _ => False)
            (fun _ => False) (fun _ => False))
    (log (verify_p12 spawn str_of_list OUTPUT_P12 g s)).
Proof.
  apply (verify_p12_always spawn str_of_list OUTPUT_P12 _ (fun _ => True));
    try (intros; exact I);
    intros; (split; [reflexivity|exact I]).
Qed.

(** C4. When the binary output file is absent or empty after the export
    step, [main] exits with status 1 having done nothing since: the
    commands of the run are those up to the export, none of them an
    import or the creation of the verification keychain, and no file was
    written. *)
Theorem C4_empty_export_stops_the_run
    (g : Globals) (s : OS X) (result : CompletedProcess) :
  let exported := through_export spawn str_of_list OUTPUT_P12 g s in
  out exported = Ret result ->
  files (sys exported) !! OUTPUT_P12 = None
  \/ files (sys exported) !! OUTPUT_P12 = Some [] ->
  let r := main spawn str_of_list OUTPUT_P12 OUTPUT_B64 g s in
  out r = Exit 1
  /\ sys r = sys exported
  /\ commands (log r) = commands (log exported)
  /\ (forall argv, argv ∈ commands (log r) ->
        subcommand argv <> Some "import"
        /\ forall password, argv <> create_keychain password VERIFY_KEYCHAIN)
  /\ writes (log r) = [].
Proof.
  intros exported Hout Hfile r. subst r exported.
  pose proof (export_stage_keeps g s) as K.
  rewrite main_from_export.
  destruct (through_export spawn str_of_list OUTPUT_P12 g s)
    as [s1 l1 o1] eqn:E1.
  cbn [out sys log] in Hout, Hfile, K |- *. subst o1.
  rewrite (bind_eq_ret _ _ _ _ _ _ E1).
  destruct (check_p12_eq OUTPUT_P12 result s1) as (l2 & E2 & C2 & W2 & R2).
  assert (bundle_nonempty s1 OUTPUT_P12 = false) as Hempty.
  { unfold bundle_nonempty. destruct Hfile as [-> | ->]; reflexivity. }
  rewrite Hempty in E2.
  rewrite (bind_eq_exit _ _ _ _ _ _ E2). cbn [prepend out sys log].
  rewrite commands_app, writes_app, C2, W2, !app_nil_r.
  split; [reflexivity|]. split; [reflexivity|]. split; [reflexivity|].
  split.
  - intros argv Hin.
    destruct (keeps_to_commands _ _ _ _ l1 argv K Hin) as (Hi & Hc & _).
    split; [exact Hi|exact Hc].
  - apply (keeps_to_no_writes _ _ _ _ l1 (fun _ H => H) K).
Qed.

(** One call of [run] with a command line the library takes: it
    returns, or the launch fails. *)
Lemma bind_run_cases {B} (cmd : list (option string)) (argv : list string)
    (k : CompletedProcess -> M X B) (s : OS X) :
  all_str cmd = Some argv ->
  argv <> [] ->
  existsb has_nul argv = false ->
  (exists result,
      bind (run spawn str_of_list cmd false) k s =
        prepend (run_events argv result)
          (k result (spawn false argv s).1))
  \/ (exists err,
        bind (run spawn str_of_list cmd false) k s =
          {| sys := (spawn false argv s).1;
             log := [EPrint (running_line argv); EFail false argv err];
             out := Raise err |}).
Proof.
  intros H Hne Hnul.
  destruct (spawn false argv s).2 as [e|err] eqn:Hl.
  - left. exists (completed argv e).
    apply bind_eq_ret, run_finished; assumption.
  - right. exists err.
    apply bind_eq_raise, run_failed; assumption.
Qed.

Lemma cleanup_cases (s : OS X) :
  let cleaned := cleanup_old_files spawn str_of_list OUTPUT_P12 s in
  commands (log cleaned) =
    (if path_exists s TEMP_KEYCHAIN
     then [delete_keychain TEMP_KEYCHAIN] else [])
  /\ (out cleaned = Ret tt -> files (sys cleaned) !! OUTPUT_P12 = None).
Proof.
  unfold cleanup_old_files. exec_pure.
  destruct (path_exists s TEMP_KEYCHAIN); exec_pure.
  - match goal with
    | |- context [bind (run _ _ ?cmd false) ?k s] =>
        destruct (bind_run_cases cmd (delete_keychain TEMP_KEYCHAIN) k s
                    eq_refl ltac:(discriminate) eq_refl)
          as [(result & ->)|(err & ->)]
    end.
    + exec_pure. rewrite remove_if_exists. cbn [prepend log out sys].
      logs. split.
      * destruct (path_exists _ OUTPUT_P12); reflexivity.
      * intros _. apply lookup_delete_eq.
    + cbn [log out sys]. split; [reflexivity|discriminate].
  - rewrite remove_if_exists. cbn [prepend log out sys]. split.
    + destruct (path_exists _ OUTPUT_P12); reflexivity.
    + intros _. apply lookup_delete_eq.
Qed.

(** The verification stage starts by handing over the stale
    verification keychain, when there is one. *)
Lemma verify_starts_with_cleanup (g : Globals) (s : OS X) :
  exists rest,
    commands (log (verify_p12 spawn str_of_list OUTPUT_P12 g s)) =
      (if path_exists s VERIFY_KEYCHAIN
       then [delete_keychain VERIFY_KEYCHAIN] else []) ++ rest.
Proof.
  unfold verify_p12. exec_pure.
  destruct (path_exists s VERIFY_KEYCHAIN); exec_pure.
  - match goal with
    | |- context [bind (run _ _ ?cmd false) ?k s] =>
        destruct (bind_run_cases cmd (delete_keychain VERIFY_KEYCHAIN) k s
                    eq_refl ltac:(discriminate) eq_refl)
          as [(result & ->)|(err & ->)]
    end.
    + cbn [prepend log]. logs. eexists. reflexivity.
    + cbn [prepend log]. exists []. reflexivity.
  - cbn [prepend log]. eexists. reflexivity.
Qed.

(** C1. In a run where the configuration has both required keys, the
    export leaves a non-empty bundle and the verification goes through,
    the encoder reads the bundle and writes, as the only file the
    process writes, the base64 text of exactly the bytes it read;
    decoding that text gives those bytes back, and they are still the
    content of the bundle when the run ends. *)
Theorem C1_text_is_base64_of_the_bundle
    (s : OS X) (result : CompletedProcess) (content : list byte) :
  let g := globals_of (config_of decode ENV_PATH s) in
  let exported := through_export spawn str_of_list OUTPUT_P12 g s in
  let verified :=
    verify_p12 spawn str_of_list OUTPUT_P12 g (sys exported) in
  Py.truthy (TARGET_HASH g) = true ->
  Py.truthy (EXPORT_PASS g) = true ->
  out exported = Ret result ->
  bundle_nonempty (sys exported) OUTPUT_P12 = true ->
  out verified = Ret tt ->
  files (sys verified) !! OUTPUT_P12 = Some content ->
  let r := script spawn str_of_list decode ENV_PATH OUTPUT_P12 OUTPUT_B64 s in
  out r = Ret tt
  /\ last (reads (log r)) = Some (OUTPUT_P12, content)
  /\ writes (log r) = [(OUTPUT_B64, Base64.b64encode content)]
  /\ files (sys r) !! OUTPUT_B64 = Some (Base64.b64encode content)
  /\ Base64.b64decode (Base64.b64encode content) = Some content
  /\ (OUTPUT_P12 <> OUTPUT_B64 ->
      files (sys r) !! OUTPUT_P12 = Some content).
Proof.
  intros g exported verified Hhash Hpass Hexp Hfull Hver Hfile r.
  subst r verified exported.
  assert (loads decode ENV_PATH s) as Hloads.
  { unfold g, globals_of in Hhash. cbn [TARGET_HASH] in Hhash.
    destruct (config_of decode ENV_PATH s !! "APPLE_CERT_HASH")
      as [val|] eqn:E; [|discriminate].
    exact (config_of_loads decode ENV_PATH s _ _ E). }
  destruct (script_eq spawn str_of_list decode ENV_PATH OUTPUT_P12
              OUTPUT_B64 s Hloads)
    as (l0 & C0 & W0 & R0 & ->).
  fold g. rewrite Hhash, Hpass. cbn [andb].
  pose proof (export_stage_keeps g s) as K1.
  rewrite main_from_export.
  destruct (through_export spawn str_of_list OUTPUT_P12 g s)
    as [s1 l1 o1] eqn:E1.
  cbn [out sys log] in Hexp, Hfull, Hver, Hfile, K1. subst o1.
  rewrite (bind_eq_ret _ _ _ _ _ _ E1).
  destruct (check_p12_eq OUTPUT_P12 result s1) as (l2 & E2 & _ & W2 & _).
  rewrite Hfull in E2. rewrite (bind_eq_ret _ _ _ _ _ _ E2).
  pose proof (verify_stage_keeps g s1) as K3.
  destruct (verify_p12 spawn str_of_list OUTPUT_P12 g s1)
    as [s3 l3 o3] eqn:E3.
  cbn [out sys log] in Hver, Hfile, K3. subst o3.
  rewrite (bind_eq_ret _ _ _ _ _ _ E3).
  pose proof (read_and_encode_eq OUTPUT_P12 OUTPUT_B64 s3) as E4.
  rewrite Hfile in E4. destruct E4 as (l4 & -> & _ & W4 & D4 & _).
  pose proof (keeps_to_no_writes _ _ _ _ l1 (fun _ H => H) K1) as W1.
  pose proof (keeps_to_no_writes _ _ _ _ l3 (fun _ H => H) K3) as W3.
  simpl. rewrite !reads_app, !writes_app, W0, W1, W2, W3, W4, D4.
  repeat split.
  - rewrite !app_assoc. apply last_snoc.
  - apply lookup_insert_eq.
  - apply Base64Facts.b64decode_b64encode.
  - intros Hne. rewrite lookup_insert_ne by congruence. exact Hfile.
Qed.

(** Whatever the configuration, up to the end of the export stage the
    process writes no file, removes at most the bundle and does not ask
    for the verification keychain to be deleted. *)
Lemma through_export_any (g : Globals) (s : OS X) :
  let exported := through_export spawn str_of_list OUTPUT_P12 g s in
  writes (log exported) = []
  /\ (forall path, path ∈ removals (log exported) -> path = OUTPUT_P12)
  /\ delete_keychain VERIFY_KEYCHAIN ∉ commands (log exported).
Proof.
  intros exported. pose proof (export_stage_keeps g s) as K.
  fold exported in K.
  split; [exact (keeps_to_no_writes _ _ _ _ _ (fun _ H => H) K)|].
  split.
  - intros path. apply (keeps_to_removals _ _ _ _ _ path K).
  - intros Hin.
    destruct (keeps_to_commands _ _ _ _ _ _ K Hin) as (_ & _ & Hd).
    apply Hd. reflexivity.
Qed.

(** C6, as amended. At the start of a run the script hands a stale
    temporary keychain to [delete-keychain] and, that call having
    returned, removes a stale bundle, and nothing else.  The stale
    verification keychain is handed to [delete-keychain] only at the
    start of the verification stage, after the export; the stale text
    file is never removed: the encoding stage overwrites it. *)
Theorem C6_stale_state_is_cleared_stage_by_stage (g : Globals) (s : OS X) :
  let cleaned := cleanup_old_files spawn str_of_list OUTPUT_P12 s in
  let exported := through_export spawn str_of_list OUTPUT_P12 g s in
  ((dependable spawn -> out cleaned = Ret tt)
   /\ commands (log cleaned) =
        (if path_exists s TEMP_KEYCHAIN
         then [delete_keychain TEMP_KEYCHAIN] else [])
   /\ (out cleaned = Ret tt -> files (sys cleaned) !! OUTPUT_P12 = None)
   /\ (forall path, path ∈ removals (log cleaned) -> path = OUTPUT_P12))
  /\ (writes (log exported) = []
      /\ (forall path, path ∈ removals (log exported) -> path = OUTPUT_P12)
      /\ delete_keychain VERIFY_KEYCHAIN ∉ commands (log exported))
  /\ (forall s1 : OS X,
        exists rest,
          commands (log (verify_p12 spawn str_of_list OUTPUT_P12 g s1)) =
            (if path_exists s1 VERIFY_KEYCHAIN
             then [delete_keychain VERIFY_KEYCHAIN] else []) ++ rest)
  /\ (forall (s2 : OS X) (content : list byte),
        files s2 !! OUTPUT_P12 = Some content ->
        let encoded := read_and_encode OUTPUT_P12 OUTPUT_B64 s2 in
        files (sys encoded) !! OUTPUT_B64 = Some (Base64.b64encode content)
        /\ removals (log encoded) = []).
Proof.
  intros cleaned exported. subst cleaned exported.
  split; [|split; [|split]].
  - destruct (cleanup_cases s) as (C1 & F1).
    split; [|split; [exact C1|split; [exact F1|]]].
    + intros Hdep.
      destruct (cleanup_eq spawn str_of_list OUTPUT_P12 Hdep s)
        as (l1 & -> & _). reflexivity.
    + intros path.
      apply (keeps_to_removals (fun _ => True) (fun p => p = OUTPUT_P12)
               (fun _ => False) (fun _ => False)).
      apply (cleanup_always spawn str_of_list OUTPUT_P12 _ (fun _ => True));
        try (intros; exact I); try reflexivity;
        intros; (split; [reflexivity|exact I]).
  - apply through_export_any.
  - intros s1. apply verify_starts_with_cleanup.
  - intros s2 content Hfile encoded. subst encoded.
    pose proof (read_and_encode_eq OUTPUT_P12 OUTPUT_B64 s2) as E.
    rewrite Hfile in E. destruct E as (l & -> & _ & _ & _ & R).
    simpl. split; [apply lookup_insert_eq|exact R].
Qed.

(** Without the temporary password [main] stops in a [TypeError] at the
    first line of the [run] that would create the temporary keychain:
    the only command it can have started is the deletion of a stale
    temporary keychain. *)
Lemma main_without_temp_pass (g : Globals) (s : OS X) :
  dependable spawn ->
  TEMP_PASS g = None ->
  let r := main spawn str_of_list OUTPUT_P12 OUTPUT_B64 g s in
  out r = Raise TypeError
  /\ commands (log r) =
       (if path_exists s TEMP_KEYCHAIN
        then [delete_keychain TEMP_KEYCHAIN] else [])
  /\ writes (log r) = [].
Proof.
  intros Hdep Ht r. subst r. unfold main.
  destruct (cleanup_eq spawn str_of_list OUTPUT_P12 Hdep s)
    as (l1 & E1 & C1 & W1 & R1).
  rewrite (bind_eq_ret _ _ _ _ _ _ E1).
  rewrite (bind_eq_raise _ _ _ _ _ _
             (create_temp_keychain_type_error spawn str_of_list g _ Ht)).
  simpl. rewrite commands_app, writes_app, C1, W1, ?app_nil_r.
  repeat split; simpl; rewrite ?app_nil_r; reflexivity.
Qed.

(** A call of [run], whatever its command line: it returns, or it
    raises and no call in its events has returned. *)
Lemma bind_run_any {B} (cmd : list (option string))
    (k : CompletedProcess -> M X B) (s : OS X) :
  (exists argv result s',
      all_str cmd = Some argv
      /\ bind (run spawn str_of_list cmd false) k s =
           prepend (run_events argv result) (k result s'))
  \/ (exists s' l err,
        bind (run spawn str_of_list cmd false) k s =
          {| sys := s'; log := l; out := Raise err |}
        /\ runs l = []
        /\ (commands l = []
            \/ exists argv, all_str cmd = Some argv /\ commands l = [argv])).
Proof.
  destruct (run_cases spawn str_of_list cmd s)
    as [(argv & e & E & Hr) | [(argv & err & E & Hr) | (lines & err & Hr)]].
  - left. exists argv, (completed argv e), (spawn false argv s).1.
    split; [exact E|]. apply (bind_eq_ret _ _ _ _ _ _ Hr).
  - right. eexists _, _, err.
    split; [apply (bind_eq_raise _ _ _ _ _ _ Hr)|].
    split; [reflexivity|]. right. exists argv. split; [exact E|reflexivity].
  - right. eexists _, _, err.
    split; [apply (bind_eq_raise _ _ _ _ _ _ Hr)|].
    split; [apply runs_prints|]. left. apply commands_prints.
Qed.

Ltac run_any :=
  match goal with
  | |- context [bind (run _ _ ?cmd false) ?k ?s] =>
      let argv := fresh "argv" in
      let res := fresh "result" in
      let s' := fresh "s" in
      let E := fresh "E" in
      let l := fresh "l" in
      let err := fresh "err" in
      let Hr := fresh "Hr" in
      let Hc := fresh "Hc" in
      destruct (bind_run_any cmd k s)
        as [(argv & res & s' & E & ->)|(s' & l & err & -> & Hr & Hc)];
      [cbn [all_str] in E; first [discriminate E | injection E as <-]
      |clear Hc]
  end.










Lemma read_and_encode_quiet (s : OS X) :
  commands (log (read_and_encode OUTPUT_P12 OUTPUT_B64 s)) = [].
Proof.
  pose proof (read_and_encode_eq OUTPUT_P12 OUTPUT_B64 s) as E.
  destruct (files s !! OUTPUT_P12) as [content|].
  - destruct E as (l & -> & C & _). exact C.
  - rewrite E. reflexivity.
Qed.


(** ** Stages that came to their end *)

Lemma bind_remove_if_exists {B} (path : string) (k : unit -> M X B)
    (s : OS X) :
  bind (if path_exists s path then os_remove path else ret tt) k s =
    prepend (if path_exists s path then [ERemove path] else [])
      (k tt (without_file path s)).
Proof. apply bind_eq_ret, remove_if_exists. Qed.

Lemma commands_removed (b : bool) (path : string) :
  commands (if b then [ERemove path] else []) = [].
Proof. destruct b; reflexivity. Qed.

(** A call that must have returned, the stage having got past it. *)
Ltac returned :=
  run_any;
  try solve [let H := fresh "H" in
             intros H; cbn [prepend out] in H; discriminate H];
  exec_pure.

Lemma failures_removed (b : bool) (path : string) :
  failures (if b then [ERemove path] else []) = [].
Proof. destruct b; reflexivity. Qed.

(** A call that must have returned, the stage not having raised. *)
Ltac not_raised :=
  run_any;
  try solve [let H := fresh "H" in
             intros H; exfalso; eapply H; cbn [prepend out]; reflexivity];
  exec_pure.

Ltac commands_of_log :=
  cbn [prepend log];
  repeat (rewrite ?commands_app, ?commands_run_events, ?commands_removed;
          cbn [commands app]).

Ltac failures_of_log :=
  cbn [prepend log];
  repeat (rewrite ?failures_app, ?failures_run_events, ?failures_removed;
          cbn [failures app]).

(** When the export stage returns, both passwords were there and every
    one of its commands was handed over and returned. *)
Lemma through_export_inv (g : Globals) (s : OS X)
    (result : CompletedProcess) :
  let exported := through_export spawn str_of_list OUTPUT_P12 g s in
  out exported = Ret result ->
  exists temp_pass export_pass,
    TEMP_PASS g = Some temp_pass
    /\ EXPORT_PASS g = Some export_pass
    /\ commands (log exported) =
         export_stage_commands OUTPUT_P12 s temp_pass export_pass
    /\ failures (log exported) = [].
Proof.
  intros exported. subst exported.
  unfold through_export, cleanup_old_files, create_temp_keychain, export_p12,
    CMD, export_stage_commands.
  destruct (TEMP_PASS g) as [temp_pass|];
    destruct (EXPORT_PASS g) as [export_pass|]; exec_pure;
    (destruct (path_exists s TEMP_KEYCHAIN); exec_pure;
     [returned|]; rewrite bind_remove_if_exists; exec_pure;
     do 4 returned; do 2 returned);
    intros _; unfold ret; exists temp_pass, export_pass;
    (split; [reflexivity|]); (split; [reflexivity|]);
    (split; [commands_of_log|failures_of_log]); reflexivity.
Qed.

(** When the verification stage does not die of an exception, the
    export password was there and every one of its commands was handed
    over and returned. *)
Lemma verify_p12_inv (g : Globals) (s : OS X) :
  let verified := verify_p12 spawn str_of_list OUTPUT_P12 g s in
  (forall err, out verified <> Raise err) ->
  exists export_pass,
    EXPORT_PASS g = Some export_pass
    /\ commands (log verified) =
         verify_stage_commands OUTPUT_P12 s export_pass
    /\ failures (log verified) = [].
Proof.
  intros verified. subst verified.
  unfold verify_p12, verify_cmd, verify_stage_commands.
  destruct (EXPORT_PASS g) as [export_pass|]; exec_pure;
    (destruct (path_exists s VERIFY_KEYCHAIN); exec_pure;
     [do 5 not_raised|do 4 not_raised]);
    match goal with
    | |- context [returncode ?r =? 0] => destruct (returncode r =? 0)
    end;
    cbn [negb]; exec_pure; unfold print, ret, sys_exit; exec_pure;
    intros _; exists export_pass; (split; [reflexivity|]);
    (split; [commands_of_log|failures_of_log]); reflexivity.
Qed.


End Claims.

(** ** The claims on concrete runs *)

(** C1 on a run of the stand-in: everything goes well and the text file
    holds the base64 of the four bytes of the bundle. *)
Lemma C1_witness :
  let s := Demo.machine ((Demo.ENV_PATH, Demo.full_env) :: Demo.stale) in
  let r := Demo.exec (Some Demo.bundle) 0 s in
  out r = Ret tt
  /\ last (reads (log r)) = Some (Demo.OUTPUT_P12, Demo.bundle)
  /\ writes (log r) = [(Demo.OUTPUT_B64, Base64.b64encode Demo.bundle)]
  /\ files (sys r) !! Demo.OUTPUT_B64 = Some (Base64.b64encode Demo.bundle)
  /\ Base64.b64decode (Base64.b64encode Demo.bundle) = Some Demo.bundle
  /\ (Demo.OUTPUT_P12 <> Demo.OUTPUT_B64 ->
      files (sys r) !! Demo.OUTPUT_P12 = Some Demo.bundle).
Proof.
  intros s r.
  pose proof (C1_text_is_base64_of_the_bundle
                (Demo.security (Some Demo.bundle) 0) Demo.str_of_list
                Demo.decode Demo.ENV_PATH Demo.OUTPUT_P12 Demo.OUTPUT_B64
                s
                (completed (export_identities "s3cret" Demo.OUTPUT_P12)
                   (Demo.quiet 0))
                Demo.bundle) as H.
  cbv zeta in H. apply H; vm_compute; reflexivity.
Defined.

(** C2 on a configuration without the export password. *)
Lemma C2_witness :
  let s := Demo.machine ((Demo.ENV_PATH, Demo.no_pass_env) :: Demo.stale) in
  let r := Demo.exec (Some Demo.bundle) 0 s in
  exit_code (out r) = 1
  /\ (loads Demo.decode Demo.ENV_PATH s -> out r = Exit 1)
  /\ commands (log r) = []
  /\ writes (log r) = []
  /\ removals (log r) = []
  /\ sys r = s.
Proof.
  intros s r.
  pose proof (C2_missing_key_exits_before_any_command
                (Demo.security (Some Demo.bundle) 0) Demo.str_of_list
                Demo.decode Demo.ENV_PATH Demo.OUTPUT_P12 Demo.OUTPUT_B64 s)
    as H.
  cbv zeta in H. apply H. right. vm_compute. reflexivity.
Defined.



(** C4 on a run whose export writes no file. *)
Lemma C4_witness :
  let s := Demo.machine Demo.stale in
  let exported :=
    through_export (Demo.security None 0) Demo.str_of_list
      Demo.OUTPUT_P12 Demo.globals s in
  let r := Demo.exec_main None 0 s in
  out r = Exit 1
  /\ sys r = sys exported
  /\ commands (log r) = commands (log exported)
  /\ (forall argv, argv ∈ commands (log r) ->
        subcommand argv <> Some "import"
        /\ forall password, argv <> create_keychain password VERIFY_KEYCHAIN)
  /\ writes (log r) = [].
Proof.
  intros s exported r.
  pose proof (C4_empty_export_stops_the_run
                (Demo.security None 0) Demo.str_of_list
                Demo.OUTPUT_P12 Demo.OUTPUT_B64 Demo.globals s
                (completed (export_identities "s3cret" Demo.OUTPUT_P12)
                   (Demo.quiet 1))) as H.
  cbv zeta in H. apply H.
  - vm_compute. reflexivity.
  - left. vm_compute. reflexivity.
Defined.

(** C5 fails on the code: a run that reaches the export stage starts the
    export twice, with the same command line. *)
Theorem C5_export_is_invoked_twice :
  let s := Demo.machine [(Demo.ENV_PATH, Demo.full_env)] in
  let r := Demo.exec (Some Demo.bundle) 0 s in
  List.filter (fun argv => bool_decide (subcommand argv = Some "export"))
    (commands (log r))
  = [export_identities "s3cret" Demo.OUTPUT_P12;
     export_identities "s3cret" Demo.OUTPUT_P12].
Proof. vm_compute. reflexivity. Qed.

(** C6 as the claim states it fails: with the leftovers of an earlier
    run on the machine, the stale verification keychain and the stale
    text file are still there after the cleanup at the start of the run
    and still there when the export stage is over. *)
Lemma C6_counterexample :
  let s := Demo.machine Demo.stale in
  let security := Demo.security (Some Demo.bundle) 0 in
  let cleaned :=
    cleanup_old_files security Demo.str_of_list Demo.OUTPUT_P12 s in
  let exported :=
    through_export security Demo.str_of_list Demo.OUTPUT_P12
      Demo.globals s in
  out cleaned = Ret tt
  /\ path_exists (sys cleaned) VERIFY_KEYCHAIN = true
  /\ path_exists (sys cleaned) Demo.OUTPUT_B64 = true
  /\ (exists result, out exported = Ret result)
  /\ path_exists (sys exported) VERIFY_KEYCHAIN = true
  /\ files (sys exported) !! Demo.OUTPUT_B64
     = Some (list_byte_of_string "b2xk").
Proof. vm_compute. repeat split; eauto. Qed.

(** C8 fails on the code: with both required keys and no temporary
    password the run passes the configuration check and then stops in a
    [TypeError]; on a clean machine it has started no command at all,
    and in particular has passed nothing to [create-keychain] or
    [unlock-keychain]. *)
Theorem C8_absent_temp_password_raises :
  let s := Demo.machine [(Demo.ENV_PATH, Demo.no_temp_env)] in
  let g := globals_of (config_of Demo.decode Demo.ENV_PATH s) in
  let r := Demo.exec (Some Demo.bundle) 0 s in
  Py.truthy (TARGET_HASH g) = true
  /\ Py.truthy (EXPORT_PASS g) = true
  /\ TEMP_PASS g = None
  /\ out r = Raise TypeError
  /\ commands (log r) = [].
Proof. vm_compute. repeat split; reflexivity. Qed.



(** * Further properties of the loader *)

Lemma append_nil_r (s : string) : s +:+ EmptyString = s.
Proof.
  induction s as [|c s IH]; [reflexivity|].
  rewrite append_String, IH. reflexivity.
Qed.

Lemma split_first_eq_none (s : string) :
  Py.all_chars not_eq_sign s = true -> split_first_eq s = None.
Proof.
  induction s as [|c s IH]; simpl; [reflexivity|].
  intros H. apply andb_prop in H as [Hc Hs]. unfold not_eq_sign in Hc.
  destruct (Ascii.eqb c "="); [discriminate|].
  rewrite (IH Hs). reflexivity.
Qed.

Lemma split_first_eq_some (s key rest : string) :
  split_first_eq s = Some (key, rest) ->
  s = key +:+ String "=" rest /\ Py.all_chars not_eq_sign key = true.
Proof.
  revert key. induction s as [|c s IH]; intros key; simpl; [discriminate|].
  destruct (Ascii.eqb_spec c "=") as [->|Hc].
  - intros [= <- <-]. split; reflexivity.
  - destruct (split_first_eq s) as [[k r]|]; [|discriminate].
    intros [= <- <-]. destruct (IH k eq_refl) as [-> Hk].
    split; [reflexivity|]. simpl. rewrite Hk. unfold not_eq_sign.
    destruct (Ascii.eqb_spec c "="); [contradiction|reflexivity].
Qed.

Lemma re_match_kv_some (s key val : string) :
  re_match_kv s = Some (key, val) ->
  key <> EmptyString
  /\ Py.all_chars not_eq_sign key = true
  /\ Py.first_char key = Py.first_char s.
Proof.
  unfold re_match_kv.
  destruct (split_first_eq s) as [[k rest]|] eqn:E; [|discriminate].
  destruct (split_first_eq_some s k rest E) as [-> Hk].
  destruct k as [|c k]; [discriminate|].
  destruct (dot_star rest) as [v tail].
  assert (Some (String c k, v) = Some (key, val) ->
          key <> EmptyString
          /\ Py.all_chars not_eq_sign key = true
          /\ Py.first_char key
             = Py.first_char (String c k +:+ String "=" rest)) as Hgoal.
  { intros [= <- <-]. repeat split; [discriminate|exact Hk]. }
  destruct tail as [|t [|t' tail]]; [exact Hgoal|exact Hgoal|discriminate].
Qed.

Lemma startswith_hash_true (s : string) :
  Py.startswith "#" (String "#" s) = true.
Proof.
  unfold Py.startswith. cbn [String.prefix].
  destruct (ascii_dec "#" "#") as [_|E]; [|contradiction].
  destruct s; reflexivity.
Qed.

Lemma first_char_not_hash (s : string) :
  Py.startswith "#" s = false ->
  forall c, Py.first_char s = Some c -> c <> "#"%char.
Proof.
  intros H c Hc ->. destruct s as [|a s]; [discriminate|].
  simpl in Hc. injection Hc as ->.
  rewrite startswith_hash_true in H. discriminate.
Qed.

(** X1. A line is cut at its first equals sign.  What stands before it
    is the key as it is, blanks inside and behind it included; what
    stands after it is the value, further equals signs included, and
    only quote characters at its two ends are taken off. *)
Theorem load_line_cuts_at_first_equals
    (env_vars : gmap string string) (line key val : string) :
  Py.strip line = key +:+ String "=" val ->
  key <> EmptyString ->
  Py.first_char key <> Some "#"%char ->
  Py.all_chars not_eq_sign key = true ->
  Py.all_chars not_lf val = true ->
  load_line env_vars line
    = <[key := Py.strip_chars quote_chars val]> env_vars.
Proof.
  intros Hline Hne Hhash Hk Hv.
  apply load_line_match.
  - rewrite Hline. destruct key as [|k key]; [congruence|].
    rewrite append_String. apply startswith_hash.
    simpl in Hhash. congruence.
  - rewrite Hline. apply re_match_kv_line; assumption.
Qed.

(** X1 on a line with blanks around the equals sign and a second equals
    sign in the value: the key keeps its blank, and so does the value. *)
Lemma load_line_cuts_at_first_equals_witness :
  load_line ∅ "  APPLE_CERT_HASH = a=b  "
    = <[ "APPLE_CERT_HASH " := " a=b" ]> ∅
  /\ load_line ∅ "  APPLE_CERT_HASH = a=b  " !! "APPLE_CERT_HASH" = None.
Proof.
  assert (load_line ∅ "  APPLE_CERT_HASH = a=b  "
          = <[ "APPLE_CERT_HASH " := " a=b" ]> ∅) as H.
  { apply (load_line_cuts_at_first_equals ∅ "  APPLE_CERT_HASH = a=b  "
             "APPLE_CERT_HASH " " a=b").
    - reflexivity.
    - discriminate.
    - discriminate.
    - reflexivity.
    - reflexivity. }
  split; [exact H|]. rewrite H. vm_compute. reflexivity.
Defined.

(** X2. A line defines nothing, and leaves the mapping as it was, when
    after stripping it is empty, starts with the comment sign, has no
    equals sign at all, or starts with the equals sign. *)
Theorem load_line_ignores
    (env_vars : gmap string string) (line : string) :
  Py.strip line = EmptyString
  \/ Py.first_char (Py.strip line) = Some "#"%char
  \/ Py.all_chars not_eq_sign (Py.strip line) = true
  \/ Py.first_char (Py.strip line) = Some "="%char ->
  load_line env_vars line = env_vars.
Proof.
  intros H. unfold load_line.
  destruct (Py.strip line) as [|c s] eqn:E; [reflexivity|].
  rewrite bool_decide_eq_false_2 by discriminate. cbn [orb].
  destruct H as [H|[H|[H|H]]].
  - discriminate.
  - simpl in H. injection H as ->. rewrite startswith_hash_true.
    reflexivity.
  - destruct (Py.startswith "#" (String c s)); [reflexivity|].
    unfold re_match_kv. rewrite (split_first_eq_none _ H). reflexivity.
  - simpl in H. injection H as ->.
    destruct (Py.startswith "#" (String "=" s)); reflexivity.
Qed.

Lemma load_line_ignores_witness :
  load_line {[ "K" := "v" ]} "   # K=other" = {[ "K" := "v" ]}
  /\ load_line {[ "K" := "v" ]} "export K" = {[ "K" := "v" ]}
  /\ load_line {[ "K" := "v" ]} "=other" = {[ "K" := "v" ]}.
Proof.
  split; [|split]; apply load_line_ignores.
  - right. left. reflexivity.
  - right. right. left. reflexivity.
  - right. right. right. reflexivity.
Defined.

(** ** Lines of a text *)

(** A line that holds no line break is read as it is. *)
Lemma lines_from_plain (cur : list ascii) (line : string) :
  Py.all_chars not_lf line = true ->
  Py.all_chars not_cr line = true ->
  Py.lines_from false cur line =
    match cur, line with
    | [], EmptyString => []
    | _, _ => [string_of_list_ascii (rev cur ++ list_ascii_of_string line)]
    end.
Proof.
  revert cur. induction line as [|c line IH]; intros cur Hlf Hcr.
  - simpl. destruct cur; [reflexivity|]. rewrite app_nil_r. reflexivity.
  - simpl in Hlf, Hcr.
    apply andb_prop in Hlf as [Hc1 Hlf]. apply andb_prop in Hcr as [Hc2 Hcr].
    unfold not_lf in Hc1. unfold not_cr in Hc2.
    cbn [Py.lines_from].
    destruct (Ascii.eqb c "010"); [discriminate|].
    destruct (Ascii.eqb c "013"); [discriminate|].
    rewrite (IH (c :: cur) Hlf Hcr). cbn [rev list_ascii_of_string].
    rewrite <- app_assoc. cbn [app].
    destruct cur; reflexivity.
Qed.

Lemma lines_plain (line : string) :
  Py.all_chars not_lf line = true ->
  Py.all_chars not_cr line = true ->
  Py.lines line = match line with EmptyString => [] | _ => [line] end.
Proof.
  intros Hlf Hcr. unfold Py.lines.
  rewrite (lines_from_plain [] line Hlf Hcr).
  destruct line as [|c line]; [reflexivity|].
  cbn [rev app]. rewrite string_of_list_ascii_of_string. reflexivity.
Qed.

(** After a text that ends in LF the reader is at the start of a line. *)
Lemma lines_from_app (a b : string) :
  forall (after_cr : bool) (cur : list ascii),
    (after_cr = true -> cur = []) ->
    Py.last_char a = Some "010"%char ->
    Py.lines_from after_cr cur (a +:+ b) =
      Py.lines_from after_cr cur a ++ Py.lines b.
Proof.
  induction a as [|c a IH]; intros after_cr cur Hinv Hlast; [discriminate|].
  destruct a as [|c' a].
  - simpl in Hlast. injection Hlast as ->.
    rewrite append_String, append_Empty. cbn [Py.lines_from].
    change (Ascii.eqb "010" "010") with true. cbv iota.
    destruct after_cr.
    + rewrite (Hinv eq_refl). reflexivity.
    + reflexivity.
  - assert (Py.last_char (String c' a) = Some "010"%char) as Hlast'
      by exact Hlast.
    rewrite append_String.
    change (Py.lines_from after_cr cur (String c (String c' a +:+ b)))
      with (if Ascii.eqb c "010" then
              if after_cr
              then Py.lines_from false cur (String c' a +:+ b)
              else string_of_list_ascii (rev ("010"%char :: cur))
                     :: Py.lines_from false [] (String c' a +:+ b)
            else if Ascii.eqb c "013" then
              string_of_list_ascii (rev ("010"%char :: cur))
                :: Py.lines_from true [] (String c' a +:+ b)
            else Py.lines_from false (c :: cur) (String c' a +:+ b)).
    change (Py.lines_from after_cr cur (String c (String c' a)))
      with (if Ascii.eqb c "010" then
              if after_cr
              then Py.lines_from false cur (String c' a)
              else string_of_list_ascii (rev ("010"%char :: cur))
                     :: Py.lines_from false [] (String c' a)
            else if Ascii.eqb c "013" then
              string_of_list_ascii (rev ("010"%char :: cur))
                :: Py.lines_from true [] (String c' a)
            else Py.lines_from false (c :: cur) (String c' a)).
    destruct (Ascii.eqb c "010"); [destruct after_cr|];
      [| |destruct (Ascii.eqb c "013")];
      rewrite IH by (try discriminate; try reflexivity; exact Hlast');
      reflexivity.
Qed.

Lemma fold_load_line_snoc (ls : list string) (line : string)
    (env_vars : gmap string string) :
  fold_left load_line (ls ++ [line]) env_vars
    = load_line (fold_left load_line ls env_vars) line.
Proof. rewrite fold_left_app. reflexivity. Qed.

(** X3. The loader works through the file line by line, in order: the
    mapping of a text continued by one more line is the mapping of the
    text with that line applied to it.  So a later assignment of a key
    replaces an earlier one and the other keys stay as they were. *)
Theorem parse_env_one_more_line (before line : string) :
  ends_in_newline before ->
  Py.all_chars not_lf line = true ->
  Py.all_chars not_cr line = true ->
  parse_env (before +:+ line) = load_line (parse_env before) line.
Proof.
  intros Hbefore Hlf Hcr. unfold parse_env.
  assert (load_line (fold_left load_line (Py.lines before) ∅) EmptyString
          = fold_left load_line (Py.lines before) ∅) as Hempty
    by reflexivity.
  destruct Hbefore as [-> | Hlast].
  - rewrite append_Empty, (lines_plain line Hlf Hcr).
    destruct line; reflexivity.
  - unfold Py.lines at 1.
    rewrite (lines_from_app before line false []) by (discriminate || exact Hlast).
    fold (Py.lines before). rewrite (lines_plain line Hlf Hcr).
    destruct line as [|c line].
    + rewrite app_nil_r. symmetry. exact Hempty.
    + apply fold_load_line_snoc.
Qed.

(** X3 on a file that assigns the export password twice: the second
    value is the one in the mapping, and the hash is still there. *)
Lemma parse_env_one_more_line_witness :
  let before := Demo.full_env in
  let line := "APPLE_CERT_EXPORT_PASS=changed" in
  parse_env (before +:+ line) = load_line (parse_env before) line
  /\ parse_env (before +:+ line) !! "APPLE_CERT_EXPORT_PASS" = Some "changed"
  /\ parse_env (before +:+ line) !! "APPLE_CERT_HASH" = Some "ABCDEF".
Proof.
  intros before line.
  assert (parse_env (before +:+ line) = load_line (parse_env before) line)
    as H.
  { apply parse_env_one_more_line.
    - right. reflexivity.
    - reflexivity.
    - reflexivity. }
  split; [exact H|]. rewrite H. vm_compute. split; reflexivity.
Defined.

(** ** What is in the mapping *)

Lemma load_line_keeps_entries_ok (env_vars : gmap string string)
    (line : string) :
  map_Forall entry_ok env_vars ->
  map_Forall entry_ok (load_line env_vars line).
Proof.
  intros Henv. unfold load_line.
  destruct (bool_decide (Py.strip line = "")); [exact Henv|].
  cbn [orb].
  destruct (Py.startswith "#" (Py.strip line)) eqn:Hhash; [exact Henv|].
  destruct (re_match_kv (Py.strip line)) as [[key val]|] eqn:Hm;
    [|exact Henv].
  apply map_Forall_insert_2; [|exact Henv].
  destruct (re_match_kv_some _ _ _ Hm) as (Hne & Hk & Hfirst).
  destruct (strip_with_spec Py.isspace line) as (_ & _ & _ & _ & _ & Hsp & _).
  destruct (strip_with_spec is_quote val) as (_ & _ & _ & _ & _ & Hq1 & Hq2).
  fold (Py.strip line) in Hsp.
  unfold entry_ok.
  split; [exact Hne|]. split; [exact Hk|].
  split; [|split; [exact Hq1|exact Hq2]].
  intros c Hc. rewrite Hfirst in Hc. split.
  - apply Hsp, Hc.
  - exact (first_char_not_hash _ Hhash c Hc).
Qed.

(** X4. Every entry the loader puts into the mapping has a key that is
    not empty, holds no equals sign and starts neither with a blank nor
    with the comment sign, and a value that neither starts nor ends with
    a quote character. *)
Theorem parse_env_entries_ok (text key val : string) :
  parse_env text !! key = Some val -> entry_ok key val.
Proof.
  unfold parse_env.
  assert (forall ls env_vars,
            map_Forall entry_ok env_vars ->
            map_Forall entry_ok (fold_left load_line ls env_vars)) as H.
  { induction ls as [|l ls IH]; intros env_vars Henv; [exact Henv|].
    simpl. apply IH, load_line_keeps_entries_ok, Henv. }
  intros Hlookup.
  exact (H (Py.lines text) ∅ (map_Forall_empty _) key val Hlookup).
Qed.

Lemma parse_env_entries_ok_witness :
  entry_ok "APPLE_CERT_EXPORT_PASS" "s3cret".
Proof.
  apply (parse_env_entries_ok Demo.full_env).
  vm_compute. reflexivity.
Defined.

(** ** Line ends *)

Lemma lines_to_crlf (text : string) :
  Py.all_chars not_cr text = true ->
  forall cur, Py.lines_from false cur (to_crlf text)
              = Py.lines_from false cur text.
Proof.
  induction text as [|c text IH]; intros Hcr cur; [reflexivity|].
  simpl in Hcr. apply andb_prop in Hcr as [Hc Hcr]. unfold not_cr in Hc.
  cbn [to_crlf].
  destruct (Ascii.eqb_spec c "010") as [->|Hlf].
  - cbn [Py.lines_from].
    change (Ascii.eqb "013" "010") with false.
    change (Ascii.eqb "013" "013") with true.
    change (Ascii.eqb "010" "010") with true.
    cbv iota. rewrite (IH Hcr). reflexivity.
  - cbn [Py.lines_from].
    destruct (Ascii.eqb_spec c "010") as [|_]; [contradiction|].
    destruct (Ascii.eqb c "013"); [discriminate|].
    apply (IH Hcr).
Qed.

(** X5. Line ends do not matter: a configuration file with LF line ends
    and the same file with CR LF line ends give the same mapping. *)
Theorem parse_env_crlf (text : string) :
  Py.all_chars not_cr text = true ->
  parse_env (to_crlf text) = parse_env text.
Proof.
  intros Hcr. unfold parse_env, Py.lines.
  rewrite (lines_to_crlf text Hcr). reflexivity.
Qed.

Lemma parse_env_crlf_witness :
  parse_env (to_crlf Demo.full_env) = parse_env Demo.full_env.
Proof. apply parse_env_crlf. reflexivity. Defined.

(** * Further properties of runs *)

Section MoreRuns.

Context {X : Type}.
Variable spawn : bool -> list string -> OS X -> OS X * Launch.
Variable str_of_list : list (option string) -> string.
Variable decode : list byte -> option string.
Variables ENV_PATH OUTPUT_P12 OUTPUT_B64 : string.

(** X6. A required key that is there with an empty value counts as
    missing: the process exits with status 1 and has started no command
    and changed nothing. *)
Theorem empty_required_value_is_missing (s : OS X) :
  let env_vars := config_of decode ENV_PATH s in
  env_vars !! "APPLE_CERT_HASH" = Some ""
  \/ env_vars !! "APPLE_CERT_EXPORT_PASS" = Some "" ->
  let r := script spawn str_of_list decode ENV_PATH OUTPUT_P12 OUTPUT_B64 s in
  out r = Exit 1
  /\ commands (log r) = []
  /\ writes (log r) = []
  /\ removals (log r) = []
  /\ sys r = s.
Proof.
  intros env_vars Hempty r. subst r.
  assert (loads decode ENV_PATH s) as Hloads.
  { destruct Hempty as [H|H];
      exact (config_of_loads decode ENV_PATH s _ _ H). }
  destruct (script_eq spawn str_of_list decode ENV_PATH OUTPUT_P12
              OUTPUT_B64 s Hloads)
    as (l & Hc & Hw & Hr & ->).
  fold env_vars.
  assert (Py.truthy (TARGET_HASH (globals_of env_vars))
          && Py.truthy (EXPORT_PASS (globals_of env_vars)) = false) as ->.
  { unfold globals_of; cbn [TARGET_HASH EXPORT_PASS].
    destruct Hempty as [-> | ->]; cbn [Py.truthy andb]; [reflexivity|].
    apply andb_false_r. }
  cbn [out log sys]. auto.
Qed.

(** ** The exit status *)








(** X8. Up to the test of the output file no exit status is looked at.
    With both passwords in the configuration, once the cleanup is over
    the export stage returns whenever every call of the utility
    returns, whatever the statuses, provided no password and no path
    holds a NUL; and whenever it returns, the commands it handed over
    are the same in the same order, the passwords passed as they are,
    and every one of them returned. *)
Theorem export_stage_ignores_statuses
    (g : Globals) (s : OS X) (temp_pass export_pass : string) :
  TEMP_PASS g = Some temp_pass ->
  EXPORT_PASS g = Some export_pass ->
  let r := through_export spawn str_of_list OUTPUT_P12 g s in
  (out (cleanup_old_files spawn str_of_list OUTPUT_P12 s) = Ret tt ->
   dependable spawn ->
   has_nul temp_pass = false ->
   has_nul export_pass = false ->
   has_nul OUTPUT_P12 = false ->
   exists result, out r = Ret result)
  /\ (forall result,
        out r = Ret result ->
        commands (log r)
        = export_stage_commands OUTPUT_P12 s temp_pass export_pass
        /\ failures (log r) = []).
Proof.
  intros Ht He r. subst r. split.
  - intros Hclean Hdep Htn Hen Hp. unfold through_export.
    destruct (cleanup_old_files spawn str_of_list OUTPUT_P12 s)
      as [s1 l1 o1] eqn:E1.
    cbn [out] in Hclean. subst o1.
    rewrite (bind_eq_ret _ _ _ _ _ _ E1).
    destruct (create_temp_keychain_eq spawn str_of_list g Hdep s1
                temp_pass Ht Htn)
      as (s2 & l2 & E2 & _).
    rewrite (bind_eq_ret _ _ _ _ _ _ E2).
    destruct (export_p12_eq spawn str_of_list OUTPUT_P12 g Hdep Hp
                s2 export_pass He Hen)
      as (s3 & l3 & result & -> & _).
    cbn [prepend out]. eauto.
  - intros result Hout.
    destruct (through_export_inv spawn str_of_list OUTPUT_P12 g s result Hout)
      as (tp & ep & Ht' & He' & C & F).
    rewrite Ht in Ht'. rewrite He in He'.
    injection Ht' as <-. injection He' as <-. split; assumption.
Qed.

(** X9. The commands of a run that gets into the verification stage and
    whose verification comes to its verdict are those of the export
    stage followed by those of the verification stage and nothing more:
    after the verification keychain is deleted no command is started,
    so the temporary keychain is left in place and the search list
    stays as the run set it. *)
Theorem commands_of_a_verified_run
    (g : Globals) (s : OS X) (temp_pass export_pass : string)
    (result : CompletedProcess) :
  TEMP_PASS g = Some temp_pass ->
  EXPORT_PASS g = Some export_pass ->
  let exported := through_export spawn str_of_list OUTPUT_P12 g s in
  out exported = Ret result ->
  bundle_nonempty (sys exported) OUTPUT_P12 = true ->
  (forall err,
      out (verify_p12 spawn str_of_list OUTPUT_P12 g (sys exported))
      <> Raise err) ->
  commands (log (main spawn str_of_list OUTPUT_P12 OUTPUT_B64 g s))
  = export_stage_commands OUTPUT_P12 s temp_pass export_pass
      ++ verify_stage_commands OUTPUT_P12 (sys exported) export_pass.
Proof.
  intros Ht He exported Hout Hfull Hver. subst exported.
  destruct (through_export_inv spawn str_of_list OUTPUT_P12 g s result Hout)
    as (tp & ep & Ht' & He' & C1 & _).
  rewrite Ht in Ht'. rewrite He in He'.
  injection Ht' as <-. injection He' as <-.
  destruct (verify_p12_inv spawn str_of_list OUTPUT_P12 g _ Hver)
    as (ep & He' & C3 & _).
  rewrite He in He'. injection He' as <-.
  rewrite main_from_export, log_bind, Hout, commands_app, C1.
  f_equal.
  set (s1 := sys (through_export spawn str_of_list OUTPUT_P12 g s)) in *.
  destruct (check_p12_eq OUTPUT_P12 result s1) as (l2 & E2 & C2 & _).
  rewrite Hfull in E2. rewrite (bind_eq_ret _ _ _ _ _ _ E2).
  cbn [prepend log]. rewrite commands_app, C2, log_bind, commands_app, C3.
  cbn [app].
  assert (commands
            match out (verify_p12 spawn str_of_list OUTPUT_P12 g s1) with
            | Ret _ => log (read_and_encode OUTPUT_P12 OUTPUT_B64
                              (sys (verify_p12 spawn str_of_list
                                      OUTPUT_P12 g s1)))
            | _ => []
            end = []) as ->.
  { destruct (out (verify_p12 spawn str_of_list OUTPUT_P12 g s1));
      [apply read_and_encode_quiet|reflexivity..]. }
  apply app_nil_r.
Qed.

(** X15. A configuration file that is no valid text stops the script at
    the read, in a [UnicodeDecodeError]: the configuration check is not
    reached, no command is started and nothing is changed. *)
Theorem undecodable_configuration_stops_the_run
    (s : OS X) (data : list byte) :
  files s !! ENV_PATH = Some data ->
  decode data = None ->
  let r := script spawn str_of_list decode ENV_PATH OUTPUT_P12 OUTPUT_B64 s in
  out r = Raise UnicodeDecodeError
  /\ reads (log r) = [(ENV_PATH, data)]
  /\ commands (log r) = []
  /\ writes (log r) = []
  /\ removals (log r) = []
  /\ sys r = s.
Proof.
  intros E Hd r. subst r.
  rewrite (script_undecodable spawn str_of_list decode ENV_PATH OUTPUT_P12
             OUTPUT_B64 s data E Hd).
  cbn [out log sys reads commands writes removals]. auto 6.
Qed.

(** X16. A temporary keychain password with a NUL in it stops [main] in
    a [ValueError] at the creation of the temporary keychain, once the
    cleanup is over: the command line has been printed, the command has
    not been started, and nothing has been started or changed since the
    cleanup. *)
Theorem nul_in_temp_password_stops_the_run
    (g : Globals) (s : OS X) (temp_pass : string) :
  TEMP_PASS g = Some temp_pass ->
  has_nul temp_pass = true ->
  let cleaned := cleanup_old_files spawn str_of_list OUTPUT_P12 s in
  out cleaned = Ret tt ->
  let r := main spawn str_of_list OUTPUT_P12 OUTPUT_B64 g s in
  out r = Raise ValueError
  /\ last (log r)
     = Some (EPrint (running_line
                       (create_keychain temp_pass TEMP_KEYCHAIN)))
  /\ commands (log r) = commands (log cleaned)
  /\ sys r = sys cleaned.
Proof.
  intros Ht Hnul cleaned Hout r. subst r cleaned. unfold main.
  destruct (cleanup_old_files spawn str_of_list OUTPUT_P12 s)
    as [s1 l1 o1] eqn:E1.
  cbn [out sys log] in Hout |- *. subst o1.
  rewrite (bind_eq_ret _ _ _ _ _ _ E1).
  assert (create_temp_keychain spawn str_of_list g s1 =
            {| sys := s1;
               log := [EPrint ("🔐 Creating temporary keychain: "
                                 +:+ TEMP_KEYCHAIN);
                       EPrint (running_line
                                 (create_keychain temp_pass TEMP_KEYCHAIN))];
               out := Raise ValueError |}) as E2.
  { unfold create_temp_keychain. rewrite Ht. exec_pure.
    erewrite bind_eq_raise; [reflexivity|].
    apply (run_value_error spawn str_of_list _
             (create_keychain temp_pass TEMP_KEYCHAIN));
      [reflexivity|discriminate|].
    unfold create_keychain. cbn [existsb]. rewrite Hnul. reflexivity. }
  rewrite (bind_eq_raise _ _ _ _ _ _ E2). cbn [prepend out log sys].
  split; [reflexivity|]. split; [|split; [|reflexivity]].
  - match goal with
    | |- last (?l ++ [?a; ?b]) = _ =>
        replace (l ++ [a; b]) with ((l ++ [a]) ++ [b])
          by (rewrite <- app_assoc; reflexivity)
    end.
    apply last_snoc.
  - rewrite commands_app. cbn [commands]. apply app_nil_r.
Qed.

End MoreRuns.

(** ** What the certificate hash does *)

Section HashOnlyPrinted.

Context {X : Type}.
Variable spawn : bool -> list string -> OS X -> OS X * Launch.
Variable str_of_list : list (option string) -> string.
Variables OUTPUT_P12 OUTPUT_B64 : string.

Lemma same_effects_refl {A} (r : Result X A) : same_effects r r.
Proof. repeat split. Qed.

Lemma same_effects_bind {A B} (m : M X A) (k k' : A -> M X B) (s : OS X) :
  (forall a s', same_effects (k a s') (k' a s')) ->
  same_effects (bind m k s) (bind m k' s).
Proof.
  intros H. unfold bind.
  destruct (out (m s)) as [a|c|e]; [|apply same_effects_refl..].
  destruct (H a (sys (m s))) as (Hs & Ho & Hr & Hf & Hd & Hw & Hm).
  unfold same_effects; cbn [sys out log].
  rewrite !runs_app, !failures_app, !reads_app, !writes_app, !removals_app.
  rewrite Hs, Ho, Hr, Hf, Hd, Hw, Hm. repeat split.
Qed.

Lemma same_effects_print {B} (line line' : string) (k k' : unit -> M X B)
    (s : OS X) :
  (forall s', same_effects (k tt s') (k' tt s')) ->
  same_effects (bind (print line) k s) (bind (print line') k' s).
Proof.
  intros H. rewrite !bind_print.
  destruct (H s) as (Hs & Ho & Hr & Hf & Hd & Hw & Hm).
  unfold same_effects, prepend; cbn [sys out log].
  rewrite !runs_app, !failures_app, !reads_app, !writes_app, !removals_app.
  rewrite Hs, Ho, Hr, Hf, Hd, Hw, Hm. repeat split.
Qed.

(** X10. The certificate hash of the configuration is printed and
    nothing else: two runs of [main] that differ only in the hash start
    the same commands with the same results and the same failures, read,
    write and remove the same files, leave the same machine and end the
    same way. *)
Theorem hash_is_only_printed (g g' : Globals) (s : OS X) :
  EXPORT_PASS g = EXPORT_PASS g' ->
  TEMP_PASS g = TEMP_PASS g' ->
  same_effects (main spawn str_of_list OUTPUT_P12 OUTPUT_B64 g s)
               (main spawn str_of_list OUTPUT_P12 OUTPUT_B64 g' s).
Proof.
  destruct g as [hash export_pass temp_pass].
  destruct g' as [hash' export_pass' temp_pass'].
  cbn [EXPORT_PASS TEMP_PASS]. intros <- <-.
  unfold main.
  apply same_effects_bind; intros _ s1.
  apply same_effects_bind; intros _ s2.
  unfold export_p12. rewrite !bind_assoc.
  apply same_effects_print; intros s3.
  apply same_effects_refl.
Qed.

End HashOnlyPrinted.

(** ** What gets printed *)

Section Announcements.

Context {X : Type}.
Variable spawn : bool -> list string -> OS X -> OS X * Launch.
Variable str_of_list : list (option string) -> string.
Variables OUTPUT_P12 OUTPUT_B64 : string.

Lemma announces_app (l l' : list event) :
  announces l -> announces l' -> announces (l ++ l').
Proof.
  intros H H' argv result Hin.
  rewrite runs_app in Hin. apply elem_of_app in Hin as [Hin|Hin].
  - apply elem_of_app. left. exact (H argv result Hin).
  - apply elem_of_app. right. exact (H' argv result Hin).
Qed.

Lemma announces_quiet (l : list event) : runs l = [] -> announces l.
Proof. intros H argv result Hin. rewrite H in Hin. inversion Hin. Qed.

Lemma announcing_bind {A B} (m : M X A) (k : A -> M X B) :
  announcing m -> (forall a, announcing (k a)) -> announcing (bind m k).
Proof.
  intros Hm Hk s. unfold bind.
  destruct (out (m s)) as [a|c|e]; cbn [log]; [|apply Hm..].
  apply announces_app; [apply Hm|apply Hk].
Qed.

Lemma announcing_quiet {A} (m : M X A) :
  (forall s, runs (log (m s)) = []) -> announcing m.
Proof. intros H s. apply announces_quiet, H. Qed.

Lemma announcing_run (cmd : list (option string)) :
  announcing (run spawn str_of_list cmd false).
Proof.
  intros s.
  destruct (run_cases spawn str_of_list cmd s)
    as [(argv & e & _ & ->) | [(argv & err & _ & ->) | (lines & err & ->)]];
    cbn [log].
  - intros argv' result Hin. rewrite runs_run_events in Hin.
    apply list_elem_of_singleton in Hin. injection Hin as -> ->.
    assert (forall r, EPrint (running_line argv) ∈ run_events argv r) as H.
    { intros r.
      assert (exists rest,
                run_events argv r = EPrint (running_line argv) :: rest)
        as [rest ->]; [|apply list_elem_of_here].
      eexists. with_strategy transparent [run_events] reflexivity. }
    apply H.
  - apply announces_quiet. reflexivity.
  - apply announces_quiet, runs_prints.
Qed.

Lemma announcing_if {A} (b : bool) (m m' : M X A) :
  announcing m -> announcing m' -> announcing (if b then m else m').
Proof. destruct b; auto. Qed.

Lemma announcing_os_remove (path : string) :
  announcing (os_remove (X:=X) path).
Proof.
  apply announcing_quiet. intros s. unfold os_remove.
  destruct (files s !! path); reflexivity.
Qed.

Lemma announcing_os_path_getsize (path : string) :
  announcing (os_path_getsize (X:=X) path).
Proof.
  apply announcing_quiet. intros s. unfold os_path_getsize.
  destruct (files s !! path); reflexivity.
Qed.

Lemma announcing_read_bytes (path : string) :
  announcing (read_bytes (X:=X) path).
Proof.
  apply announcing_quiet. intros s. unfold read_bytes.
  destruct (files s !! path); reflexivity.
Qed.

Ltac announcing_step :=
  first
    [ apply announcing_run
    | apply announcing_bind; [|intros ?]
    | apply announcing_if
    | apply announcing_os_remove
    | apply announcing_os_path_getsize
    | apply announcing_read_bytes
    | apply announcing_quiet; intros ?; reflexivity ].

(** X11. Every command a run of [main] starts has its complete command
    line printed on standard output, the passwords that follow [-p] and
    [-P] included. *)
Theorem main_announces_every_command
    (g : Globals) (s : OS X) (argv : list string)
    (result : CompletedProcess) :
  let l := log (main spawn str_of_list OUTPUT_P12 OUTPUT_B64 g s) in
  (argv, result) ∈ runs l ->
  EPrint ("Running: " +:+ Py.join " " argv) ∈ l.
Proof.
  intros l. subst l. revert s argv result.
  change (announcing (main spawn str_of_list OUTPUT_P12 OUTPUT_B64 g)).
  unfold main, cleanup_old_files, create_temp_keychain, export_p12,
    check_p12, verify_p12, read_and_encode.
  repeat announcing_step.
Qed.

End Announcements.

(** ** The further properties of runs on concrete runs *)

(** X6 on a configuration whose export password is a pair of quotes. *)
Lemma empty_required_value_is_missing_witness :
  let s := Demo.machine [(Demo.ENV_PATH, Sample.empty_pass_env)] in
  let r := Demo.exec (Some Demo.bundle) 0 s in
  config_of Demo.decode Demo.ENV_PATH s !! "APPLE_CERT_EXPORT_PASS" = Some ""
  /\ out r = Exit 1
  /\ commands (log r) = []
  /\ writes (log r) = []
  /\ removals (log r) = []
  /\ sys r = s.
Proof.
  intros s r. split; [vm_compute; reflexivity|].
  pose proof (empty_required_value_is_missing
                (Demo.security (Some Demo.bundle) 0) Demo.str_of_list
                Demo.decode Demo.ENV_PATH Demo.OUTPUT_P12 Demo.OUTPUT_B64 s)
    as H.
  cbv zeta in H. apply H. right. vm_compute. reflexivity.
Defined.

(** X8 with a utility that refuses every command: the stage returns
    all the same, with all its commands handed over. *)
Lemma export_stage_ignores_statuses_witness :
  let s := Demo.machine Demo.stale in
  let r :=
    through_export Sample.refusing Demo.str_of_list Demo.OUTPUT_P12
      Demo.globals s in
  (exists result, out r = Ret result)
  /\ (forall result,
        out r = Ret result ->
        commands (log r)
        = export_stage_commands Demo.OUTPUT_P12 s "tmp" "s3cret"
        /\ failures (log r) = []).
Proof.
  intros s r.
  destruct (export_stage_ignores_statuses
              Sample.refusing Demo.str_of_list Demo.OUTPUT_P12
              Demo.globals s "tmp" "s3cret" eq_refl eq_refl)
    as [Hreturns Hcommands].
  split; [|exact Hcommands].
  apply Hreturns; try reflexivity.
  intros shell argv s'. eexists. reflexivity.
Defined.

(** X9 on a run of the stand-in that goes well. *)
Lemma commands_of_a_verified_run_witness :
  let s := Demo.machine Demo.stale in
  let security := Demo.security (Some Demo.bundle) 0 in
  let exported :=
    through_export security Demo.str_of_list Demo.OUTPUT_P12
      Demo.globals s in
  commands (log (Demo.exec_main (Some Demo.bundle) 0 s))
  = export_stage_commands Demo.OUTPUT_P12 s "tmp" "s3cret"
      ++ verify_stage_commands Demo.OUTPUT_P12 (sys exported) "s3cret".
Proof.
  intros s security exported.
  pose proof (commands_of_a_verified_run
                security Demo.str_of_list Demo.OUTPUT_P12 Demo.OUTPUT_B64
                Demo.globals s "tmp" "s3cret"
                (completed (export_identities "s3cret" Demo.OUTPUT_P12)
                   (Demo.quiet 0))) as H.
  cbv zeta in H. apply H; [reflexivity|reflexivity| | |].
  - vm_compute. reflexivity.
  - vm_compute. reflexivity.
  - intros err. vm_compute. discriminate.
Defined.

(** X10 on two configurations with different hashes. *)
Lemma hash_is_only_printed_witness :
  let s := Demo.machine Demo.stale in
  let security := Demo.security (Some Demo.bundle) 0 in
  same_effects
    (main security Demo.str_of_list Demo.OUTPUT_P12 Demo.OUTPUT_B64
       Demo.globals s)
    (main security Demo.str_of_list Demo.OUTPUT_P12 Demo.OUTPUT_B64
       Sample.other_hash s).
Proof.
  intros s security.
  apply (hash_is_only_printed security Demo.str_of_list
           Demo.OUTPUT_P12 Demo.OUTPUT_B64 Demo.globals Sample.other_hash s);
    reflexivity.
Defined.

(** X11 on the export of a run of the stand-in: the password is on
    standard output. *)
Lemma main_announces_every_command_witness :
  let l :=
    log (Demo.exec_main (Some Demo.bundle) 0 (Demo.machine Demo.stale)) in
  EPrint "Running: security export -k login.keychain -t identities -f pkcs12 -P s3cret -o /repo/scripts/certificate.p12"
    ∈ l.
Proof.
  intros l.
  pose proof (main_announces_every_command
                (Demo.security (Some Demo.bundle) 0) Demo.str_of_list
                Demo.OUTPUT_P12 Demo.OUTPUT_B64 Demo.globals
                (Demo.machine Demo.stale)
                (export_identities "s3cret" Demo.OUTPUT_P12)
                (completed (export_identities "s3cret" Demo.OUTPUT_P12)
                   (Demo.quiet 0))) as H.
  cbv zeta in H. apply H.
  apply list_elem_of_In. vm_compute.
  repeat first [left; reflexivity | right].
Defined.

(** X15 on a configuration file of one byte, 255. *)
Lemma undecodable_configuration_stops_the_run_witness :
  let s : OS unit :=
    {| files := {[ Demo.ENV_PATH := Sample.binary_env ]}; ext := tt |} in
  let r := Demo.exec (Some Demo.bundle) 0 s in
  out r = Raise UnicodeDecodeError
  /\ reads (log r) = [(Demo.ENV_PATH, Sample.binary_env)]
  /\ commands (log r) = []
  /\ writes (log r) = []
  /\ removals (log r) = []
  /\ sys r = s.
Proof.
  intros s r.
  pose proof (undecodable_configuration_stops_the_run
                (Demo.security (Some Demo.bundle) 0) Demo.str_of_list
                Demo.decode Demo.ENV_PATH Demo.OUTPUT_P12 Demo.OUTPUT_B64
                s Sample.binary_env) as H.
  cbv zeta in H. apply H.
  - apply lookup_singleton_eq.
  - reflexivity.
Defined.

(** X16 on a temporary password with a NUL in it. *)
Lemma nul_in_temp_password_stops_the_run_witness :
  let s := Demo.machine Demo.stale in
  let security := Demo.security (Some Demo.bundle) 0 in
  let g := {| TARGET_HASH := Some "ABCDEF";
              EXPORT_PASS := Some "s3cret";
              TEMP_PASS := Some Sample.nul_password |} in
  let cleaned :=
    cleanup_old_files security Demo.str_of_list Demo.OUTPUT_P12 s in
  let r :=
    main security Demo.str_of_list Demo.OUTPUT_P12 Demo.OUTPUT_B64 g s in
  out r = Raise ValueError
  /\ last (log r)
     = Some (EPrint (running_line
                       (create_keychain Sample.nul_password TEMP_KEYCHAIN)))
  /\ commands (log r) = commands (log cleaned)
  /\ sys r = sys cleaned.
Proof.
  intros s security g cleaned r.
  pose proof (nul_in_temp_password_stops_the_run
                security Demo.str_of_list Demo.OUTPUT_P12 Demo.OUTPUT_B64
                g s Sample.nul_password) as H.
  cbv zeta in H. apply H; reflexivity.
Defined.

(** ** The text that is written *)

Module Base64Shape.

Import Base64.

Lemma char_of_base64 (n : Z) : base64_char (char_of n).
Proof.
  unfold base64_char, char_of.
  destruct (nth_in_or_default (Z.to_nat n) alphabet pad) as [H|H].
  - left. apply list_elem_of_In, H.
  - right. exact H.
Qed.

Lemma pad_base64 : base64_char pad.
Proof. right. reflexivity. Qed.

Lemma b64encode_chars (data : list byte) :
  Forall base64_char (b64encode data).
Proof.
  assert (forall n (l : list byte), (length l <= n)%nat ->
            Forall base64_char (b64encode l)) as H.
  { induction n as [|n IH]; intros l Hl.
    - destruct l; [constructor|simpl in Hl; lia].
    - destruct l as [|a [|b [|c rest]]]; cbn [b64encode]; cbv zeta.
      + constructor.
      + repeat (constructor;
                [first [apply char_of_base64 | apply pad_base64]|]).
        constructor.
      + repeat (constructor;
                [first [apply char_of_base64 | apply pad_base64]|]).
        constructor.
      + repeat (constructor; [apply char_of_base64|]).
        apply IH. simpl in Hl. lia. }
  apply (H (length data)). lia.
Qed.

Lemma b64encode_length (data : list byte) :
  length (b64encode data) = (4 * ((length data + 2) / 3))%nat.
Proof.
  assert (forall n (l : list byte), (length l <= n)%nat ->
            length (b64encode l) = (4 * ((length l + 2) / 3))%nat) as H.
  { induction n as [|n IH]; intros l Hl.
    - destruct l; [reflexivity|simpl in Hl; lia].
    - destruct l as [|a [|b [|c rest]]]; [reflexivity..|].
      cbn [b64encode length]. rewrite IH by (simpl in Hl; lia).
      replace (S (S (S (length rest))) + 2)%nat
        with ((length rest + 2) + 1 * 3)%nat by lia.
      rewrite Nat.div_add by lia. lia. }
  apply (H (length data)). lia.
Qed.

End Base64Shape.

Section TextFile.

Context {X : Type}.
Variables OUTPUT_P12 OUTPUT_B64 : string.

(** X12. The text file the encoding stage leaves holds four characters
    for every three bytes of the bundle, the last group filled up, all
    of them letters, digits, plus, slash or the equals sign: one line
    with no line break, not even at its end. *)
Theorem text_file_shape (s : OS X) (content : list byte) :
  files s !! OUTPUT_P12 = Some content ->
  let r := read_and_encode OUTPUT_P12 OUTPUT_B64 s in
  exists text,
    files (sys r) !! OUTPUT_B64 = Some text
    /\ length text = (4 * ((length content + 2) / 3))%nat
    /\ Forall base64_char text
    /\ "010"%byte ∉ text.
Proof.
  intros Hc r. subst r.
  pose proof (read_and_encode_eq OUTPUT_P12 OUTPUT_B64 s) as E.
  rewrite Hc in E. destruct E as (l & -> & _).
  exists (Base64.b64encode content). cbn [sys files].
  split; [apply lookup_insert_eq|].
  split; [apply Base64Shape.b64encode_length|].
  split; [apply Base64Shape.b64encode_chars|].
  intros Hin.
  pose proof (Base64Shape.b64encode_chars content) as Hall.
  rewrite Forall_forall in Hall. destruct (Hall _ Hin) as [Ha|Hp].
  - apply list_elem_of_In in Ha. vm_compute in Ha.
    repeat (destruct Ha as [Ha|Ha]; [discriminate Ha|]). exact Ha.
  - discriminate Hp.
Qed.

End TextFile.

(** X12 on the four bytes of the stand-in's bundle: eight characters. *)
Lemma text_file_shape_witness :
  let s := Demo.machine [(Demo.OUTPUT_P12, "PK12")] in
  let r := read_and_encode Demo.OUTPUT_P12 Demo.OUTPUT_B64 s in
  exists text,
    files (sys r) !! Demo.OUTPUT_B64 = Some text
    /\ length text = 8%nat
    /\ Forall base64_char text
    /\ "010"%byte ∉ text.
Proof.
  intros s r.
  pose proof (text_file_shape Demo.OUTPUT_P12 Demo.OUTPUT_B64 s
                (list_byte_of_string "PK12")) as H.
  cbv zeta in H. apply H. vm_compute. reflexivity.
Defined.

(** ** What a run never does *)


Section Never.

Context {X : Type}.
Variable spawn : bool -> list string -> OS X -> OS X * Launch.
Variable str_of_list : list (option string) -> string.
Variable decode : list byte -> option string.
Variables ENV_PATH OUTPUT_P12 OUTPUT_B64 : string.

(** X13. Whatever the configuration, the machine and the utility, the
    process itself reads no file but the configuration and the bundle,
    removes no file but the bundle and writes no file but the text
    file. *)
Theorem script_keeps_to_its_own_files (s : OS X) :
  Forall (own_file ENV_PATH OUTPUT_P12 OUTPUT_B64)
    (log (script spawn str_of_list decode ENV_PATH OUTPUT_P12 OUTPUT_B64 s)).
Proof.
  apply (script_always spawn str_of_list decode ENV_PATH OUTPUT_P12
           OUTPUT_B64 (own_file ENV_PATH OUTPUT_P12 OUTPUT_B64)
           (fun _ => True));
    cbn [own_file]; auto.
Qed.

(** X14. Every child process of a run is the [security] utility, started
    from an argument vector: no command line ever goes through a shell,
    so nothing in a password or a path is interpreted by one. *)
Theorem script_starts_security_without_a_shell (s : OS X) :
  Forall security_call
    (log (script spawn str_of_list decode ENV_PATH OUTPUT_P12 OUTPUT_B64 s)).
Proof.
  apply (script_always spawn str_of_list decode ENV_PATH OUTPUT_P12
           OUTPUT_B64 security_call
           (fun argv => head argv = Some "security"));
    cbn [security_call]; auto.
Qed.

End Never.
